(** * Verification of the GitHub-to-Confluence publisher

    Shallow embedding of [src/publisher/pagesController.py],
    [src/publisher/pagesPublisher.py] and [src/publisher/main.py].

    Every call to the remote page store is modelled as a read from an
    oracle of responses (record [remote]), and every observable effect
    (HTTP request, [time.sleep], print, exit) is appended to a trace.
    Python exceptions that escape a function are the [Raise] branch of
    the result. *)

From Stdlib Require Import String Ascii List ZArith Bool Lia.
Import ListNotations.
Open Scope string_scope.
Open Scope Z_scope.

(** ** Python string helpers *)

(** [str.lower()] restricted to ASCII letters. *)
Definition lower_ascii (c : ascii) : ascii :=
  let n := nat_of_ascii c in
  if (65 <=? n)%nat && (n <=? 90)%nat then ascii_of_nat (n + 32) else c.

Fixpoint py_lower (s : string) : string :=
  match s with
  | EmptyString => EmptyString
  | String c s' => String (lower_ascii c) (py_lower s')
  end.

(** [sub in s]. *)
Fixpoint py_contains (sub s : string) : bool :=
  String.prefix sub s ||
  match s with
  | EmptyString => false
  | String _ s' => py_contains sub s'
  end.

(** [s.endswith(suf)]. *)
Definition py_endswith (suf s : string) : bool :=
  (String.length suf <=? String.length s)%nat &&
  String.eqb (substring (String.length s - String.length suf)
                        (String.length suf) s) suf.

(** ** Results, traces and the effect monad *)

Inductive exn :=
| ExnRequest          (* requests.exceptions.* escaping the function *)
| ExnZeroDivision.

Inductive res (A : Type) :=
| Ok (a : A)
| Raise (e : exn).
Arguments Ok {A} a.
Arguments Raise {A} e.

(** Observable events, in the order they happen. *)
Inductive event :=
| EvSearch (full_title ancestor : string) (attempt : nat)
| EvDetail (page_id : string)
| EvSleep (seconds : Z)
| EvCreate (title parent : string)
| EvUpdate (page_id title : string) (version : Z)
| EvDirect (title : string)
| EvList (request : nat)
| EvFetch (page_id : string)
| EvDelete (page_id : string)
| EvUpsertCall (title : string)
| EvUpsertDone (title : string) (success : bool)
| EvSubmit (path : string) (parent : option string)
| EvRecordSuccess (operation : option string)
| EvRecordError (path kind : string)
| EvSummary (successful created updated failed : nat)
| EvExit (code : Z).

Definition M (A : Type) : Type := (list event * res A)%type.

Definition ret {A} (a : A) : M A := ([], Ok a).
Definition raise {A} (e : exn) : M A := ([], Raise e).
Definition tell (evs : list event) : M unit := (evs, Ok tt).

Definition bind {A B} (m : M A) (f : A -> M B) : M B :=
  let (t1, r) := m in
  match r with
  | Ok a => let (t2, r2) := f a in (app t1 t2, r2)
  | Raise e => (t1, Raise e)
  end.

Notation "x <- m ;; k" := (bind m (fun x => k))
  (at level 61, m at next level, right associativity).
Notation "m ;;; k" := (bind m (fun _ => k))
  (at level 61, right associativity).

Definition trace {A} (m : M A) : list event := fst m.
Definition result {A} (m : M A) : res A := snd m.

(** ** Remote page store responses *)

Record search_hit := { hit_id : string; hit_version : option Z; hit_title : string }.

Inductive search_resp :=
| SRExc
| SRResp (status : Z) (results : list search_hit).

(** Response to [GET content/{id}] issued for a missing version number. *)
Inductive detail_resp :=
| DTExc
| DTResp (status : Z) (version : option Z).

(** Response to the page-creating POST; [None] body = invalid JSON. *)
Record create_body := { cb_id : option string; cb_message : option string }.
Inductive create_resp :=
| CRExc
| CRResp (status : Z) (body : option create_body).

(** Response to the page-updating PUT; [json_ok] = body parses. *)
Inductive update_resp :=
| URExc
| URResp (status : Z) (json_ok : bool) (message : option string).

(** Response to the direct [GET content?title=...] lookup. *)
Inductive direct_resp :=
| DRExc
| DRResp (status : Z) (results : list (string * option Z)).

(** Response to [GET content/{id}] issued by the orphan scan. *)
Inductive title_resp :=
| TRExc
| TRResp (status : Z) (title : option string).

Inductive delete_resp :=
| DLExc
| DLResp (status : Z).

(** Response to one request of the paginated search [searchPages]. *)
Inductive batch_resp :=
| BRExc
| BRResp (status : Z) (ids : list string) (has_next : bool).

Record remote := {
  r_search : string -> string -> nat -> search_resp;  (* full title, ancestor, attempt *)
  r_detail : string -> nat -> detail_resp;            (* page id, attempt *)
  r_create : string -> string -> create_resp;         (* title, parent *)
  r_update : string -> Z -> update_resp;              (* page id, new version *)
  r_direct : string -> nat -> direct_resp;            (* title, lookup number *)
  r_fetch  : string -> title_resp;                    (* page id *)
  r_delete : string -> delete_resp                    (* page id *)
}.

Record config := {
  confluence_search_pattern : string;
  confluence_parent_page_id : string
}.

(** Python dicts returned by [createPage] and its helpers. *)
Inductive status_val := SCode (c : Z) | SException | SNA.
Inductive operation := OpCreated | OpUpdated.
Inductive pub_result :=
| PROk (page_id : string) (op : operation)
| PRFail (error : string) (status_code : status_val).

Definition success (r : pub_result) : bool :=
  match r with PROk _ _ => true | PRFail _ _ => false end.

Record page := { pg_id : string; pg_version : Z; pg_title : string }.

Section Controller.
Variable cfg : config.
Variable R : remote.

(** ** [findPageByTitle] *)

Definition max_retries : nat := 3.
Definition retry_delays : list Z := [0; 2; 4].

Definition parent_id_to_use (parentPageID : option string) : string :=
  match parentPageID with
  | None => confluence_parent_page_id cfg
  | Some p => p
  end.

(** One iteration of the retry loop: [Some p] when it returns the page,
    [None] when it falls through to the next iteration (or to [return None]
    at the last one); both the "not found", the "status <> 200" and the
    [except] branches do the latter. *)
Definition search_attempt (search_title ancestor : string) (attempt : nat)
  : M (option page) :=
  (if (0 <? attempt)%nat
   then tell [EvSleep (nth attempt retry_delays 0)] else ret tt) ;;;
  tell [EvSearch search_title ancestor attempt] ;;;
  match r_search R search_title ancestor attempt with
  | SRExc => ret None
  | SRResp status hits =>
      if status =? 200 then
        match hits with
        | [] => ret None
        | h :: _ =>
            match hit_version h with
            | Some v => ret (Some {| pg_id := hit_id h; pg_version := v;
                                     pg_title := hit_title h |})
            | None =>
                tell [EvDetail (hit_id h)] ;;;
                match r_detail R (hit_id h) attempt with
                | DTExc => ret None
                | DTResp st ov =>
                    let v := if st =? 200
                             then match ov with Some v => v | None => 1 end
                             else 1 in
                    ret (Some {| pg_id := hit_id h; pg_version := v;
                                 pg_title := hit_title h |})
                end
            end
        end
      else ret None
  end.

Fixpoint search_loop (search_title ancestor : string) (attempts : list nat)
  : M (option page) :=
  match attempts with
  | [] => ret None
  | attempt :: rest =>
      o <- search_attempt search_title ancestor attempt ;;
      match o with
      | Some p => ret (Some p)
      | None =>
          if (attempt <? max_retries - 1)%nat
          then search_loop search_title ancestor rest
          else ret None
      end
  end.

Definition findPageByTitle (title : string) (parentPageID : option string)
  : M (option page) :=
  let search_title := title ++ "  " ++ confluence_search_pattern cfg in
  search_loop search_title (parent_id_to_use parentPageID) (seq 0 max_retries).

(** ** [findPageByTitleDirect] *)

Definition findPageByTitleDirect (full_title : string) (n : nat) : M (option page) :=
  tell [EvDirect full_title] ;;;
  match r_direct R full_title n with
  | DRExc => ret None
  | DRResp status results =>
      if status =? 200 then
        match results with
        | [] => ret None
        | (id, ov) :: _ =>
            ret (Some {| pg_id := id;
                         pg_version := match ov with Some v => v | None => 1 end;
                         pg_title := full_title |})
        end
      else ret None
  end.

(** ** [updatePage] *)

Definition exception_text : string := "<exception>".

Definition updatePage (page_id title : string) (version : Z) : M pub_result :=
  tell [EvUpdate page_id title (version + 1)] ;;;
  match r_update R page_id (version + 1) with
  | URExc => ret (PRFail exception_text SException)
  | URResp status json_ok msg =>
      if negb json_ok then ret (PRFail exception_text SException)
      else if status =? 200 then ret (PROk page_id OpUpdated)
      else ret (PRFail (match msg with Some m => m | None => "Unknown error" end)
                       (SCode status))
  end.

(** ** [createNewPage] *)

Definition is_duplicate_title_error (error_message : string) : bool :=
  py_contains "already exists" (py_lower error_message) ||
  py_contains "same title" (py_lower error_message).

Definition createNewPage (title : string) (parentPageID : option string)
  : M pub_result :=
  let parent := parent_id_to_use parentPageID in
  tell [EvCreate title parent] ;;;
  match r_create R title parent with
  | CRExc => raise ExnRequest
  | CRResp status None =>
      ret (PRFail "Invalid JSON response from Confluence" SNA)
  | CRResp status (Some body) =>
      match status =? 200, cb_id body with
      | true, Some id => ret (PROk id OpCreated)
      | _, _ =>
          let error_message :=
            match cb_message body with Some m => m | None => "Unknown error" end in
          let failed := PRFail error_message (SCode status) in
          if is_duplicate_title_error error_message then
            existing <- findPageByTitleDirect title 0 ;;
            match existing with
            | Some p => updatePage (pg_id p) title (pg_version p)
            | None =>
                tell [EvSleep 3] ;;;
                existing' <- findPageByTitleDirect title 1 ;;
                match existing' with
                | Some p => updatePage (pg_id p) title (pg_version p)
                | None => ret failed
                end
            end
          else ret failed
      end
  end.

(** ** [createPage]: the upsert *)

Definition full_title_of (title : string) : string :=
  title ++ "  " ++ confluence_search_pattern cfg.

Definition createPage (title : string) (parentPageID : option string)
  : M pub_result :=
  existing <- findPageByTitle title parentPageID ;;
  match existing with
  | Some p => updatePage (pg_id p) (full_title_of title) (pg_version p)
  | None => createNewPage (full_title_of title) parentPageID
  end.

End Controller.

(** ** Pure readings of single responses *)

Definition direct_result (title : string) (r : direct_resp) : option page :=
  match r with
  | DRExc => None
  | DRResp status results =>
      if status =? 200 then
        match results with
        | [] => None
        | (id, ov) :: _ =>
            Some {| pg_id := id;
                    pg_version := match ov with Some v => v | None => 1 end;
                    pg_title := title |}
        end
      else None
  end.

(** A search response on which an attempt finds nothing: an exception,
    a status other than 200, or an empty result list. *)
Definition search_miss (r : search_resp) : bool :=
  match r with
  | SRExc => true
  | SRResp status hits =>
      negb (status =? 200) || match hits with [] => true | _ => false end
  end.

(** The store [R] with a search index that never finds anything. *)
Definition with_empty_search (R : remote) : remote :=
  {| r_search := fun _ _ _ => SRResp 200 [];
     r_detail := r_detail R; r_create := r_create R; r_update := r_update R;
     r_direct := r_direct R; r_fetch := r_fetch R; r_delete := r_delete R |}.

Definition is_search_or_sleep (e : event) : bool :=
  match e with EvSearch _ _ _ | EvSleep _ => true | _ => false end.

(** The request/sleep schedule of the three search attempts. *)
Definition search_schedule (ft anc : string) : list event :=
  [EvSearch ft anc 0; EvSleep 2; EvSearch ft anc 1; EvSleep 4; EvSearch ft anc 2].

(** ** Monad lemmas *)

Lemma bind_ok {A B} (m : M A) (f : A -> M B) t a :
  m = (t, Ok a) -> bind m f = (app t (fst (f a)), snd (f a)).
Proof. intros ->. unfold bind. destruct (f a); reflexivity. Qed.

Lemma bind_raise {A B} (m : M A) (f : A -> M B) t e :
  m = (t, Raise e) -> bind m f = (t, Raise e).
Proof. intros ->. reflexivity. Qed.

Lemma surjective_M {A} (m : M A) : m = (trace m, result m).
Proof. destruct m; reflexivity. Qed.

Section ControllerFacts.
Variable cfg : config.
Variable R : remote.

Lemma findPageByTitleDirect_eq t n :
  findPageByTitleDirect R t n = ([EvDirect t], Ok (direct_result t (r_direct R t n))).
Proof.
  unfold findPageByTitleDirect, direct_result.
  destruct (r_direct R t n) as [|st rs]; [reflexivity|].
  destruct (st =? 200); [|reflexivity].
  destruct rs as [|[id ov] rs]; reflexivity.
Qed.

Lemma updatePage_trace id t v :
  trace (updatePage R id t v) = [EvUpdate id t (v + 1)].
Proof.
  unfold updatePage, trace. cbn.
  destruct (r_update R id (v + 1)) as [|st ok m]; [reflexivity|].
  destruct ok; cbn; [destruct (st =? 200)|]; reflexivity.
Qed.

Lemma updatePage_ok id t v : exists r, result (updatePage R id t v) = Ok r.
Proof.
  unfold updatePage, result. cbn.
  destruct (r_update R id (v + 1)) as [|st ok m]; cbn; [eauto|].
  destruct ok; cbn; [destruct (st =? 200)|]; cbn; eauto.
Qed.

Lemma updatePage_stale id t v st m :
  r_update R id (v + 1) = URResp st true m -> st <> 200 ->
  exists e, result (updatePage R id t v) = Ok (PRFail e (SCode st)).
Proof.
  intros Hr Hst. unfold updatePage, result. cbn. rewrite Hr. cbn.
  apply Z.eqb_neq in Hst. rewrite Hst. cbn. eauto.
Qed.

Definition sleep_before (n : nat) : list event :=
  if (0 <? n)%nat then [EvSleep (nth n retry_delays 0)] else [].

Lemma search_attempt_shape s a n :
  exists t o, search_attempt R s a n = (t, Ok o) /\
    filter is_search_or_sleep t = app (sleep_before n) [EvSearch s a n] /\
    (search_miss (r_search R s a n) = true -> o = None /\ t = app (sleep_before n) [EvSearch s a n]).
Proof.
  unfold search_attempt, sleep_before, search_miss.
  destruct (0 <? n)%nat; cbn;
  (destruct (r_search R s a n) as [|st hits]; cbn;
   [ do 2 eexists; split; [reflexivity|]; split; [reflexivity|]; auto
   | destruct (st =? 200); cbn;
     [ destruct hits as [|h hs]; cbn;
       [ do 2 eexists; split; [reflexivity|]; split; [reflexivity|]; auto
       | destruct (hit_version h); cbn;
         [ do 2 eexists; split; [reflexivity|]; split; [reflexivity|];
           discriminate
         | destruct (r_detail R (hit_id h) n) as [|st' ov]; cbn;
           do 2 eexists; (split; [reflexivity|]); (split; [reflexivity|]);
           discriminate ] ]
     | do 2 eexists; split; [reflexivity|]; split; [reflexivity|]; auto ] ]).
Qed.

End ControllerFacts.

Section UpsertFacts.
Variable cfg : config.
Variable R : remote.

Lemma filter_app_ss l1 l2 :
  filter is_search_or_sleep (app l1 l2) =
  app (filter is_search_or_sleep l1) (filter is_search_or_sleep l2).
Proof. apply filter_app. Qed.

Lemma findPageByTitle_shape title parent :
  exists k o, (1 <= k <= 3)%nat /\
    result (findPageByTitle cfg R title parent) = Ok o /\
    filter is_search_or_sleep (trace (findPageByTitle cfg R title parent)) =
      firstn (2 * k - 1)
        (search_schedule (full_title_of cfg title) (parent_id_to_use cfg parent)) /\
    (o = None -> k = 3%nat).
Proof.
  unfold findPageByTitle, max_retries. simpl seq. cbn [search_loop].
  fold (full_title_of cfg title).
  set (ft := full_title_of cfg title). set (anc := parent_id_to_use cfg parent).
  destruct (search_attempt_shape R ft anc 0) as [t0 [o0 [E0 [F0 _]]]].
  rewrite (bind_ok _ _ _ _ E0).
  destruct o0 as [p|].
  { exists 1%nat, (Some p). cbn. rewrite app_nil_r, F0.
    repeat split; [lia|lia|discriminate]. }
  cbn - [search_attempt].
  destruct (search_attempt_shape R ft anc 1) as [t1 [o1 [E1 [F1 _]]]].
  rewrite (bind_ok _ _ _ _ E1).
  destruct o1 as [p|].
  { exists 2%nat, (Some p). cbn. rewrite !app_nil_r, filter_app_ss, F0, F1.
    repeat split; [lia|lia|discriminate]. }
  cbn - [search_attempt].
  destruct (search_attempt_shape R ft anc 2) as [t2 [o2 [E2 [F2 _]]]].
  rewrite (bind_ok _ _ _ _ E2).
  exists 3%nat, o2. destruct o2 as [p|]; cbn;
    rewrite ?app_nil_r, !filter_app_ss, F0, F1, F2;
    repeat split; try lia; reflexivity.
Qed.

Lemma createPage_bind title parent o :
  result (findPageByTitle cfg R title parent) = Ok o ->
  createPage cfg R title parent =
    let k := match o with
             | Some p => updatePage R (pg_id p) (full_title_of cfg title) (pg_version p)
             | None => createNewPage cfg R (full_title_of cfg title) parent
             end in
    (app (trace (findPageByTitle cfg R title parent)) (trace k), result k).
Proof.
  intros Hr. unfold createPage.
  rewrite (bind_ok _ _ (trace (findPageByTitle cfg R title parent)) o).
  - reflexivity.
  - rewrite (surjective_M (findPageByTitle cfg R title parent)) at 1.
    now rewrite Hr.
Qed.

Lemma findPageByTitle_all_miss title parent :
  (forall n, (n < 3)%nat ->
     search_miss (r_search R (full_title_of cfg title)
                             (parent_id_to_use cfg parent) n) = true) ->
  findPageByTitle cfg R title parent =
    (search_schedule (full_title_of cfg title) (parent_id_to_use cfg parent),
     Ok None).
Proof.
  intros Hmiss.
  unfold findPageByTitle, max_retries. simpl seq. cbn [search_loop].
  fold (full_title_of cfg title).
  set (ft := full_title_of cfg title) in *. set (anc := parent_id_to_use cfg parent) in *.
  destruct (search_attempt_shape R ft anc 0) as [t0 [o0 [E0 [_ M0]]]].
  destruct (M0 (Hmiss 0%nat ltac:(lia))) as [-> ->].
  rewrite (bind_ok _ _ _ _ E0). cbn - [search_attempt].
  destruct (search_attempt_shape R ft anc 1) as [t1 [o1 [E1 [_ M1]]]].
  destruct (M1 (Hmiss 1%nat ltac:(lia))) as [-> ->].
  rewrite (bind_ok _ _ _ _ E1). cbn - [search_attempt].
  destruct (search_attempt_shape R ft anc 2) as [t2 [o2 [E2 [_ M2]]]].
  destruct (M2 (Hmiss 2%nat ltac:(lia))) as [-> ->].
  rewrite (bind_ok _ _ _ _ E2). reflexivity.
Qed.


End UpsertFacts.

Section UpsertClaims.
Variable cfg : config.
Variable R : remote.

(** Claim C3: the upsert [createPage] first searches for the suffixed
    title under the parent, with at most three search requests preceded
    by sleeps of 2 s and 4 s (none before the first); a page found by the
    search is updated once with version + 1 and a stale-version rejection
    comes back as a failure without any further request; creation is
    attempted only when all three attempts found nothing. *)
Theorem createPage_search_retry_then_update_or_create title parent :
  let find := findPageByTitle cfg R title parent in
  let ft := full_title_of cfg title in
  exists k o, (1 <= k <= 3)%nat /\
    result find = Ok o /\
    filter is_search_or_sleep (trace find) =
      firstn (2 * k - 1) (search_schedule ft (parent_id_to_use cfg parent)) /\
    match o with
    | Some p =>
        createPage cfg R title parent =
          (app (trace find) [EvUpdate (pg_id p) ft (pg_version p + 1)],
           result (updatePage R (pg_id p) ft (pg_version p))) /\
        (forall st m, r_update R (pg_id p) (pg_version p + 1) = URResp st true m ->
           st <> 200 ->
           exists e, result (createPage cfg R title parent) = Ok (PRFail e (SCode st)))
    | None =>
        k = 3%nat /\
        createPage cfg R title parent =
          (app (trace find) (trace (createNewPage cfg R ft parent)),
           result (createNewPage cfg R ft parent))
    end.
Proof.
  intros find ft.
  destruct (findPageByTitle_shape cfg R title parent) as [k [o [Hk [Hr [Hf Hn]]]]].
  exists k, o. split; [exact Hk|]. split; [exact Hr|]. split; [exact Hf|].
  rewrite (createPage_bind cfg R title parent o Hr).
  destruct o as [p|].
  - cbn zeta. rewrite updatePage_trace. split; [reflexivity|].
    intros st m Hu Hst. cbn [result snd].
    exact (updatePage_stale R (pg_id p) ft (pg_version p) st m Hu Hst).
  - split; [now apply Hn|reflexivity].
Qed.

(** Claim C9: when all three search attempts fail (exception, status
    other than 200) or find nothing, [findPageByTitle] returns [None] and
    the upsert goes on to the creation path; its run is then identical,
    request for request and result for result, to its run against a
    store whose search finds nothing. *)
Theorem createPage_search_outage_is_absence title parent :
  (forall n, (n < 3)%nat ->
     search_miss (r_search R (full_title_of cfg title)
                             (parent_id_to_use cfg parent) n) = true) ->
  result (findPageByTitle cfg R title parent) = Ok None /\
  createPage cfg R title parent =
    (app (trace (findPageByTitle cfg R title parent))
         (trace (createNewPage cfg R (full_title_of cfg title) parent)),
     result (createNewPage cfg R (full_title_of cfg title) parent)) /\
  createPage cfg R title parent = createPage cfg (with_empty_search R) title parent.
Proof.
  intros Hmiss.
  assert (Hf := findPageByTitle_all_miss cfg R title parent Hmiss).
  assert (Hf' : findPageByTitle cfg (with_empty_search R) title parent =
                (search_schedule (full_title_of cfg title) (parent_id_to_use cfg parent),
                 Ok None)).
  { apply findPageByTitle_all_miss. intros n _. reflexivity. }
  split; [now rewrite Hf|].
  split; [rewrite (createPage_bind cfg R title parent None); [reflexivity|now rewrite Hf]|].
  unfold createPage. rewrite Hf, Hf'. reflexivity.
Qed.

End UpsertClaims.

Definition error_message_of (body : create_body) : string :=
  match cb_message body with Some m => m | None => "Unknown error" end.

Definition created_ok (st : Z) (body : create_body) : bool :=
  (st =? 200) && match cb_id body with Some _ => true | None => false end.

Section FallbackClaim.
Variable cfg : config.
Variable R : remote.

(** Claim C4: when the search found nothing and the creating POST is
    rejected with a duplicate-title message, the upsert looks the title up
    directly (one [GET content?title=...]); if that finds nothing it
    sleeps 3 s and looks it up once more; a page found by either lookup
    is updated, and the creation failure is surfaced only when both
    lookups find nothing. *)
Theorem createPage_duplicate_title_fallback title parent st body :
  let ft := full_title_of cfg title in
  let anc := parent_id_to_use cfg parent in
  let pre := app (trace (findPageByTitle cfg R title parent)) [EvCreate ft anc; EvDirect ft] in
  result (findPageByTitle cfg R title parent) = Ok None ->
  r_create R ft anc = CRResp st (Some body) ->
  created_ok st body = false ->
  is_duplicate_title_error (error_message_of body) = true ->
  createPage cfg R title parent =
    match direct_result ft (r_direct R ft 0) with
    | Some p =>
        (app pre (trace (updatePage R (pg_id p) ft (pg_version p))),
         result (updatePage R (pg_id p) ft (pg_version p)))
    | None =>
        match direct_result ft (r_direct R ft 1) with
        | Some p =>
            (app pre (EvSleep 3 :: EvDirect ft :: trace (updatePage R (pg_id p) ft (pg_version p))),
             result (updatePage R (pg_id p) ft (pg_version p)))
        | None =>
            (app pre [EvSleep 3; EvDirect ft],
             Ok (PRFail (error_message_of body) (SCode st)))
        end
    end.
Proof.
  intros ft anc pre Hfind Hc Hok Hdup.
  rewrite (createPage_bind cfg R title parent None Hfind). cbn zeta.
  fold ft. unfold pre. clear pre.
  unfold createNewPage. fold anc. cbn - [findPageByTitleDirect updatePage].
  rewrite Hc. cbn - [findPageByTitleDirect updatePage].
  unfold created_ok in Hok. unfold error_message_of in *.
  destruct (st =? 200), (cb_id body); cbn in Hok; try discriminate;
  cbn - [findPageByTitleDirect updatePage]; rewrite Hdup;
  rewrite (bind_ok _ _ _ _ (findPageByTitleDirect_eq R ft 0));
  (destruct (direct_result ft (r_direct R ft 0)) as [p|];
   [ rewrite (surjective_M (updatePage R (pg_id p) ft (pg_version p)));
     cbn; rewrite <- !app_assoc; reflexivity
   | cbn - [findPageByTitleDirect updatePage];
     rewrite (bind_ok _ _ _ _ (findPageByTitleDirect_eq R ft 1));
     destruct (direct_result ft (r_direct R ft 1)) as [p|];
     [ rewrite (surjective_M (updatePage R (pg_id p) ft (pg_version p))) | ];
     cbn; rewrite <- !app_assoc; reflexivity ]).
Qed.

End FallbackClaim.

(** ** More Python string helpers: [str.replace] and [str.strip] *)

Fixpoint replace_fuel (fuel : nat) (old new s : string) : string :=
  match fuel with
  | O => s
  | S f =>
      match s with
      | EmptyString => EmptyString
      | String c s' =>
          if String.prefix old s
          then new ++ replace_fuel f old new
                        (substring (String.length old)
                                   (String.length s - String.length old) s)
          else String c (replace_fuel f old new s')
      end
  end.

(** [s.replace(old, new)] for a non-empty [old] (every call site
    replaces ["  " + pattern]); each step consumes at least one
    character, so [length s] steps suffice. *)
Definition py_replace (old new s : string) : string :=
  replace_fuel (String.length s) old new s.

(** [str.isspace], which is what [str.strip()] removes, on the code
    points a character of the model can hold (0 to 255): the ASCII
    whitespace 9-13 and 32, the separators 28-31, NEL (133) and NBSP (160). *)
Definition is_space (c : ascii) : bool :=
  match nat_of_ascii c with
  | 9 | 10 | 11 | 12 | 13 | 28 | 29 | 30 | 31 | 32 | 133 | 160 => true
  | _ => false
  end%nat.

Fixpoint py_lstrip (s : string) : string :=
  match s with
  | EmptyString => EmptyString
  | String c s' => if is_space c then py_lstrip s' else s
  end.

Fixpoint py_rstrip (s : string) : string :=
  match s with
  | EmptyString => EmptyString
  | String c s' =>
      let r := py_rstrip s' in
      match r with
      | EmptyString => if is_space c then EmptyString else String c EmptyString
      | _ => String c r
      end
  end.

Definition py_strip (s : string) : string := py_rstrip (py_lstrip s).

(** Membership in a Python [set] of strings. *)
Definition py_set_mem (x : string) (s : list string) : bool :=
  existsb (String.eqb x) s.

(** ** Reconciliation: [searchPages], [cleanupOrphanPages], [deletePages] *)

Record orphan := { o_id : string; o_title : string; o_base : string }.

Record cleanup_result := {
  deleted_count : Z;
  orphans : list orphan;
  skipped : option bool;          (* [None]: no 'skipped' key *)
  reason : option string
}.

Definition lift {A} (r : res A) : M A := ([], r).

Section Reconcile.
Variable cfg : config.
Variable R : remote.

(** The [while current_url] loop of [searchPages]: [bs] is the sequence
    of responses the store gives to the successive requests; the loop
    follows the continuation link while there is one, and stops at a
    status other than 200 or an exception, keeping what it has. *)
Fixpoint search_pages_loop (n : nat) (bs : list batch_resp) (found : list string)
  : M (list string) :=
  match bs with
  | [] => ret found
  | b :: rest =>
      tell [EvList n] ;;;
      match b with
      | BRExc => ret found
      | BRResp status ids has_next =>
          if negb (status =? 200) then ret found
          else
            let found' := app found ids in
            if has_next then search_pages_loop (S n) rest found' else ret found'
      end
  end.

Definition searchPages (bs : list batch_resp) : M (list string) :=
  search_pages_loop 0 bs [].

(** Title recovery of the orphan scan. *)
Definition base_title_of (full_title : string) : string :=
  let search_pattern := confluence_search_pattern cfg in
  if py_contains search_pattern full_title
  then py_strip (py_replace ("  " ++ search_pattern) "" full_title)
  else full_title.

(** The [for page_id in all_pages] loop: a page whose title cannot be
    fetched (exception, status other than 200) is skipped. *)
Fixpoint scan_orphans (expected : list string) (pages : list string)
  (acc : list orphan) : M (list orphan) :=
  match pages with
  | [] => ret acc
  | page_id :: rest =>
      tell [EvFetch page_id] ;;;
      match r_fetch R page_id with
      | TRExc => scan_orphans expected rest acc
      | TRResp status t =>
          if status =? 200 then
            let full_title := match t with Some x => x | None => "" end in
            let base_title := base_title_of full_title in
            if py_set_mem base_title expected
            then scan_orphans expected rest acc
            else scan_orphans expected rest
                   (app acc [{| o_id := page_id; o_title := full_title;
                                o_base := base_title |}])
          else scan_orphans expected rest acc
      end
  end.

(** [deletePages]: one DELETE per id; an exception escapes (no [try]);
    [deletedPages] is returned without ever being appended to. *)
Fixpoint delete_loop (ids : list string) : M unit :=
  match ids with
  | [] => ret tt
  | page :: rest =>
      tell [EvDelete page] ;;;
      match r_delete R page with
      | DLExc => raise ExnRequest
      | DLResp _ => delete_loop rest
      end
  end.

Definition deletePages (pagesIDList : list string) : M (list string) :=
  delete_loop pagesIDList ;;; ret [].

(** [orphan_percentage > 20] with [orphan_percentage =
    (orphan_count / total_pages) * 100], read over the rationals; the
    float expression equals 20.0 exactly when the ratio is 1/5. *)
Definition threshold_exceeded (orphan_count total_pages : nat) : res bool :=
  if (total_pages =? 0)%nat then Raise ExnZeroDivision
  else Ok (20 * total_pages <? 100 * orphan_count)%nat.

(** The skip reason keeps the fixed prefix of the source's formatted
    message ([f'Safety threshold exceeded ({orphan_percentage:.1f}% >
    20%)'']); the rendered percentage is left out. *)
Definition cleanupOrphanPages (expected_pages_set : list string)
  (bs : list batch_resp) : M cleanup_result :=
  all_pages <- searchPages bs ;;
  match all_pages with
  | [] => ret {| deleted_count := 0; orphans := []; skipped := None; reason := None |}
  | _ =>
      orphan_details <- scan_orphans expected_pages_set all_pages [] ;;
      let orphan_count := length orphan_details in
      let total_pages := length all_pages in
      if (0 <? orphan_count)%nat then
        exceeded <- lift (threshold_exceeded orphan_count total_pages) ;;
        if exceeded then
          ret {| deleted_count := 0; orphans := orphan_details; skipped := Some true;
                 reason := Some "Safety threshold exceeded" |}
        else
          deletePages (map o_id orphan_details) ;;;
          ret {| deleted_count := Z.of_nat orphan_count; orphans := orphan_details;
                 skipped := Some false; reason := None |}
      else ret {| deleted_count := 0; orphans := []; skipped := Some false; reason := None |}
  end.

End Reconcile.

(** ** Pure readings of the reconciliation *)

Section ReconcileFacts.
Variable cfg : config.
Variable R : remote.

(** The orphan details the scan collects, in page order. *)
Fixpoint orphans_of (expected : list string) (pages : list string) : list orphan :=
  match pages with
  | [] => []
  | page_id :: rest =>
      match r_fetch R page_id with
      | TRResp status t =>
          if status =? 200 then
            let full_title := match t with Some x => x | None => "" end in
            if py_set_mem (base_title_of cfg full_title) expected
            then orphans_of expected rest
            else {| o_id := page_id; o_title := full_title;
                    o_base := base_title_of cfg full_title |} :: orphans_of expected rest
          else orphans_of expected rest
      | TRExc => orphans_of expected rest
      end
  end.

(** The ids [deletePages] sends a DELETE for: all of them, up to and
    including the first whose request raises. *)
Fixpoint delete_prefix (ids : list string) : list string :=
  match ids with
  | [] => []
  | id :: rest =>
      id :: match r_delete R id with DLExc => [] | DLResp _ => delete_prefix rest end
  end.

Definition all_delete_respond (ids : list string) : bool :=
  forallb (fun id => match r_delete R id with DLExc => false | DLResp _ => true end) ids.

Definition found_pages (bs : list batch_resp) : list string :=
  match result (searchPages bs) with Ok l => l | Raise _ => [] end.

Definition is_delete (e : event) : bool :=
  match e with EvDelete _ => true | _ => false end.

Lemma tell_bind {A} evs (k : M A) :
  (tell evs ;;; k) = (app evs (trace k), result k).
Proof. unfold bind, tell, trace, result. destruct k; reflexivity. Qed.

Lemma scan_orphans_eq expected pages acc :
  scan_orphans cfg R expected pages acc =
    (map EvFetch pages, Ok (app acc (orphans_of expected pages))).
Proof.
  revert acc. induction pages as [|id rest IH]; intros acc.
  - cbn. now rewrite app_nil_r.
  - cbn [scan_orphans orphans_of]. rewrite tell_bind.
    destruct (r_fetch R id) as [|st t].
    + now rewrite IH.
    + destruct (st =? 200).
      * cbn zeta.
        destruct (py_set_mem (base_title_of cfg (match t with Some x => x | None => "" end))
                   expected).
        -- now rewrite IH.
        -- rewrite IH. cbn. now rewrite <- app_assoc.
      * now rewrite IH.
Qed.

Lemma search_pages_loop_shape n bs found :
  exists t l, search_pages_loop n bs found = (t, Ok l) /\ filter is_delete t = [].
Proof.
  revert n found. induction bs as [|b rest IH]; intros n found.
  - cbn. do 2 eexists; split; reflexivity.
  - cbn [search_pages_loop]. rewrite tell_bind.
    destruct b as [|st ids nx].
    + cbn. do 2 eexists; split; reflexivity.
    + destruct (negb (st =? 200)); [cbn; do 2 eexists; split; reflexivity|].
      destruct nx; [|cbn; do 2 eexists; split; reflexivity].
      destruct (IH (S n) (app found ids)) as [t [l [E F]]].
      rewrite E. cbn. do 2 eexists; split; [reflexivity|exact F].
Qed.

Lemma searchPages_shape bs :
  exists t, searchPages bs = (t, Ok (found_pages bs)) /\ filter is_delete t = [].
Proof.
  unfold found_pages, searchPages.
  destruct (search_pages_loop_shape 0 bs []) as [t [l [E F]]].
  rewrite E. cbn. eexists; split; [reflexivity|exact F].
Qed.

Lemma delete_loop_eq ids :
  trace (delete_loop R ids) = map EvDelete (delete_prefix ids) /\
  result (delete_loop R ids) =
    (if all_delete_respond ids then Ok tt else Raise ExnRequest).
Proof.
  induction ids as [|id rest [IHt IHr]].
  - split; reflexivity.
  - cbn [delete_loop delete_prefix all_delete_respond forallb].
    rewrite tell_bind. unfold trace, result in *. cbn.
    destruct (r_delete R id); cbn.
    + split; reflexivity.
    + unfold all_delete_respond in IHr. rewrite IHt, IHr. split; reflexivity.
Qed.

Lemma filter_delete_fetches pages : filter is_delete (map EvFetch pages) = [].
Proof. induction pages; cbn; auto. Qed.

Lemma filter_delete_deletes ids : filter is_delete (map EvDelete ids) = map EvDelete ids.
Proof. induction ids; cbn; f_equal; auto. Qed.



Lemma delete_prefix_all ids : all_delete_respond ids = true -> delete_prefix ids = ids.
Proof.
  induction ids as [|id rest IH]; [reflexivity|].
  cbn. destruct (r_delete R id); [discriminate|]. intros H.
  unfold all_delete_respond in IH. now rewrite (IH H).
Qed.

End ReconcileFacts.

Section ReconcileClaims.
Variable cfg : config.
Variable R : remote.

Lemma cleanupOrphanPages_unfold expected bs :
  exists t0, filter is_delete t0 = [] /\
  cleanupOrphanPages cfg R expected bs =
    match found_pages bs with
    | [] => (t0, Ok {| deleted_count := 0; orphans := []; skipped := None; reason := None |})
    | pages =>
        let O := orphans_of cfg R expected pages in
        if (0 <? length O)%nat then
          if (20 * length pages <? 100 * length O)%nat then
            (app t0 (map EvFetch pages),
             Ok {| deleted_count := 0; orphans := O; skipped := Some true;
                   reason := Some "Safety threshold exceeded" |})
          else
            (app t0 (app (map EvFetch pages) (map EvDelete (delete_prefix R (map o_id O)))),
             if all_delete_respond R (map o_id O)
             then Ok {| deleted_count := Z.of_nat (length O); orphans := O;
                        skipped := Some false; reason := None |}
             else Raise ExnRequest)
        else
          (app t0 (map EvFetch pages),
           Ok {| deleted_count := 0; orphans := []; skipped := Some false; reason := None |})
    end.
Proof.
  destruct (searchPages_shape bs) as [t0 [E0 F0]].
  exists t0. split; [exact F0|].
  unfold cleanupOrphanPages. rewrite (bind_ok _ _ _ _ E0).
  destruct (found_pages bs) as [|p ps] eqn:Hp.
  - cbn. now rewrite app_nil_r.
  - cbv beta iota zeta.
    rewrite (bind_ok _ _ _ _ (scan_orphans_eq cfg R expected (p :: ps) [])).
    cbn [app]. set (O := orphans_of cfg R expected (p :: ps)). clearbody O.
    destruct (0 <? length O)%nat.
    + unfold lift, threshold_exceeded.
      replace (length (p :: ps) =? 0)%nat with false by reflexivity.
      rewrite (bind_ok _ _ [] (20 * length (p :: ps) <? 100 * length O)%nat) by reflexivity.
      destruct (20 * length (p :: ps) <? 100 * length O)%nat.
      * cbn. now rewrite !app_nil_r.
      * unfold deletePages. destruct (delete_loop_eq R (map o_id O)) as [Ht Hr].
        rewrite (surjective_M (delete_loop R (map o_id O))), Ht, Hr.
        destruct (all_delete_respond R (map o_id O)); cbn; rewrite ?app_nil_r; reflexivity.
    + cbn. now rewrite !app_nil_r.
Qed.


(** Claim C10: when the scan identifies no orphan (in particular when
    the search finds no page), the cleanup returns deleted_count = 0 with
    an empty orphan list, issues no DELETE request, and does not raise
    (the ratio, whose denominator could be 0, is not computed). *)
Theorem cleanupOrphanPages_no_orphans expected bs :
  orphans_of cfg R expected (found_pages bs) = [] ->
  result (cleanupOrphanPages cfg R expected bs) =
    Ok {| deleted_count := 0; orphans := [];
          skipped := match found_pages bs with [] => None | _ => Some false end;
          reason := None |} /\
  filter is_delete (trace (cleanupOrphanPages cfg R expected bs)) = [].
Proof.
  intros HO.
  destruct (cleanupOrphanPages_unfold expected bs) as [t0 [F0 E]].
  rewrite E. revert HO. destruct (found_pages bs) as [|p ps]; intros HO.
  - split; [reflexivity|exact F0].
  - cbv zeta. rewrite HO.
    replace (0 <? length (@nil orphan))%nat with false by reflexivity.
    cbn [trace result fst snd]. rewrite filter_app, F0, filter_delete_fetches.
    split; reflexivity.
Qed.

(** The ratio guard never divides by zero. *)
Lemma cleanupOrphanPages_no_zero_division expected bs :
  result (cleanupOrphanPages cfg R expected bs) <> Raise ExnZeroDivision.
Proof.
  destruct (cleanupOrphanPages_unfold expected bs) as [t0 [F0 E]].
  rewrite E. destruct (found_pages bs) as [|p ps]; [discriminate|].
  cbv zeta.
  destruct (0 <? _)%nat; [|discriminate].
  destruct (_ <? _)%nat; [discriminate|].
  destruct (all_delete_respond _ _); discriminate.
Qed.

End ReconcileClaims.

(** ** The local tree *)

(** A directory entry as [os.scandir] / [os.walk] see it.  [EOther] is
    anything that is neither a directory nor a regular file once links
    are followed: a dangling symlink, a fifo, a socket. *)
Scheme All for list.

Inductive entry :=
| EDir (name : string) (kids : list entry)
| EFile (name : string)
| ESymlink (name : string) (target : entry)
| EOther (name : string).

Definition name_of (e : entry) : string :=
  match e with
  | EDir n _ | EFile n | ESymlink n _ | EOther n => n
  end.

(** [DirEntry.is_dir()] (follows symlinks). *)
Fixpoint is_dir (e : entry) : bool :=
  match e with
  | EDir _ _ => true
  | ESymlink _ t => is_dir t
  | _ => false
  end.

(** [DirEntry.is_file()] (follows symlinks). *)
Fixpoint is_file (e : entry) : bool :=
  match e with
  | EFile _ => true
  | ESymlink _ t => is_file t
  | _ => false
  end.

Definition is_symlink (e : entry) : bool :=
  match e with ESymlink _ _ => true | _ => false end.

(** The listing of the directory an entry resolves to. *)
Fixpoint dir_kids (e : entry) : list entry :=
  match e with
  | EDir _ ks => ks
  | ESymlink _ t => dir_kids t
  | _ => []
  end.

(** [name.lower().endswith('.md')].  ([publishFolder] tests the whole
    path, which ends in ["/" ++ name]; since ['/'] is not ['.'] the two
    tests agree.) *)
Definition is_md (name : string) : bool := py_endswith ".md" (py_lower name).

(** [os.path.join(rel_root, name)] with the [rel_root == '.'] case of
    the source; the separator is already ['/']. *)
Definition join_rel (rel_root name : string) : string :=
  if String.eqb rel_root "." then name else rel_root ++ "/" ++ name.

(** ** [buildExpectedPagesSet]

    [os.walk] top-down without [followlinks]: each visited directory
    contributes the names of its [dirs] (entries with [is_dir()], symlinks
    to directories included) and of its [md] [files] (every other entry);
    it then descends into the [dirs] that are not symlinks. *)
Definition level_titles (rel_root : string) (kids : list entry) : list string :=
  app (map (fun d => join_rel rel_root (name_of d)) (filter is_dir kids))
      (map (fun f => join_rel rel_root (name_of f))
           (filter (fun f => negb (is_dir f) && is_md (name_of f)) kids)).

Definition real_dir (e : entry) : bool := is_dir e && negb (is_symlink e).

Fixpoint walk_titles (rel_root : string) (e : entry) {struct e} : list string :=
  match e with
  | EDir _ kids =>
      app (level_titles rel_root kids)
          (flat_map (fun k => if real_dir k
                              then walk_titles (join_rel rel_root (name_of k)) k
                              else []) kids)
  | _ => []
  end.

(** The set is returned as the list of titles in insertion order; only
    membership is ever used. *)
Definition buildExpectedPagesSet (root_kids : list entry) : list string :=
  walk_titles "." (EDir "." root_kids).

(** ** Canonical titles and traversal paths *)

(** The canonical title of the entry reached from the publish root by
    the names [p]: the [rel_root] / [os.path.join] chain of the source. *)
Definition canonical_title (p : list string) : string := fold_left join_rel p ".".

(** The kinds of entry [buildExpectedPagesSet] adds a title for. *)
Definition expected_kind (e : entry) : bool := is_dir e || is_md (name_of e).

(** [walked kids p e]: [os.walk] from a directory listing [kids] lists
    the entry [e] at the names [p] (it only descends into real, not
    symlinked, directories). *)
Inductive walked : list entry -> list string -> entry -> Prop :=
| walked_here kids k :
    In k kids -> walked kids [name_of k] k
| walked_down kids n ks p e :
    In (EDir n ks) kids -> walked ks p e -> walked kids (n :: p) e.

(** Resolution of a path below a directory, following symlinks the way
    [publishFolder]'s [os.scandir] recursion does. *)
Fixpoint lookup_in (e : entry) (p : list string) : option entry :=
  match p with
  | [] => Some e
  | n :: rest =>
      match find (fun k => String.eqb (name_of k) n) (dir_kids e) with
      | Some k => lookup_in k rest
      | None => None
      end
  end.

(** The local entry at path [p] under the publish root. *)
Definition entry_at (root_kids : list entry) (p : list string) : option entry :=
  match p with
  | [] => None
  | _ => lookup_in (EDir "." root_kids) p
  end.

Fixpoint no_slash (s : string) : bool :=
  match s with
  | EmptyString => true
  | String c s' => negb (Ascii.eqb c "/") && no_slash s'
  end.

(** A file name a POSIX directory can hold. *)
Definition valid_name (n : string) : bool :=
  negb (String.eqb n "") && negb (String.eqb n ".") && negb (String.eqb n "..") &&
  no_slash n.

Fixpoint names_ok (e : entry) : bool :=
  match e with
  | EDir _ ks => forallb (fun k => valid_name (name_of k) && names_ok k) ks
  | ESymlink _ t => names_ok t
  | _ => true
  end.

Lemma list_all_In {A : Set} (P : A -> Prop) l :
  list_all@{Prop ; _ _} A P l -> forall x, In x l -> P x.
Proof.
  induction 1 as [|a Pa l' Hl IH]; intros x Hx; [destruct Hx|].
  destruct Hx as [<-|Hx]; auto.
Qed.

Lemma in_level_titles rel kids t :
  In t (level_titles rel kids) <->
  exists k, In k kids /\ expected_kind k = true /\ join_rel rel (name_of k) = t.
Proof.
  unfold level_titles, expected_kind. rewrite in_app_iff, !in_map_iff. split.
  - intros [[k [Ht Hk]] | [k [Ht Hk]]]; apply filter_In in Hk as [Hin Hb];
      exists k; repeat split; auto.
    + now rewrite Hb.
    + apply andb_true_iff in Hb as [_ Hm]. now rewrite Hm, orb_true_r.
  - intros [k [Hin [Hb Ht]]]. destruct (is_dir k) eqn:Hd.
    + left. exists k. split; auto. apply filter_In. auto.
    + right. exists k. split; auto. apply filter_In. split; auto.
      cbn in Hb. now rewrite Hd, Hb.
Qed.

Lemma walk_titles_spec e :
  forall rel t,
  match e with
  | EDir _ kids =>
      In t (walk_titles rel e) <->
      exists p e', walked kids p e' /\ fold_left join_rel p rel = t /\
                   expected_kind e' = true
  | _ => True
  end.
Proof.
  induction e as [n kids IH | n | n tgt _ | n] using entry_ind; intros rel t; auto.
  cbn [walk_titles]. rewrite in_app_iff, in_flat_map, in_level_titles. split.
  - intros [[k [Hin [Hk Ht]]] | [k [Hin Ht]]].
    + exists [name_of k], k. split; [now constructor|]. auto.
    + destruct k as [n' ks' | n' | n' tg | n']; cbn in Ht; try contradiction.
      * apply (list_all_In _ _ IH _ Hin) in Ht as [p [e' [Hw [Hp Hk]]]].
        exists (n' :: p), e'. split; [econstructor; eauto|]. auto.
      * destruct (real_dir (ESymlink n' tg)); contradiction.
  - intros [p [e' [Hw [Ht Hk]]]]. inversion Hw; subst.
    + left. exists e'. auto.
    + right. exists (EDir n0 ks). split; auto. cbn.
      apply (list_all_In _ _ IH _ H). exists p0, e'. auto.
Qed.

Section ExpectedSetClaims.

(** Claim C6 (as amended): a title is in the expected set exactly when
    it is the canonical title of an entry that [os.walk] lists from the
    publish root (the root's entries and, recursively, those of every
    real, non-symlink subdirectory, empty ones included) and that entry
    is a directory once symlinks are followed or its name ends in [.md]
    case-insensitively. *)
Theorem buildExpectedPagesSet_members root_kids t :
  In t (buildExpectedPagesSet root_kids) <->
  exists p e, walked root_kids p e /\ canonical_title p = t /\ expected_kind e = true.
Proof. exact (walk_titles_spec (EDir "." root_kids) "." t). Qed.

(** Claim C6, counterexample: a symlink to a directory and a symlink
    named [notes.md] are both added to the expected set. *)
Lemma buildExpectedPagesSet_adds_symlinks :
  let tree := [ESymlink "docs" (EDir "guide" [EFile "x.md"]);
               ESymlink "notes.md" (EFile "a.md")] in
  Forall (fun e => is_symlink e = true) tree /\
  In "docs" (buildExpectedPagesSet tree) /\
  In "notes.md" (buildExpectedPagesSet tree).
Proof.
  cbv zeta. split; [repeat constructor|].
  split; vm_compute; auto.
Qed.

End ExpectedSetClaims.

(** ** Uniqueness of canonical titles *)

Fixpoint slash_join (p : list string) : string :=
  match p with
  | [] => ""
  | [n] => n
  | n :: rest => n ++ "/" ++ slash_join rest
  end.

Lemma str_app_assoc (a b c : string) : (a ++ b) ++ c = a ++ (b ++ c).
Proof. induction a as [|x a IH]; cbn; [reflexivity|now rewrite IH]. Qed.

Lemma app_slash_not_dot (a s : string) : a ++ "/" ++ s <> ".".
Proof.
  destruct a as [|c a]; cbn; [discriminate|].
  intros H. injection H as _ H. destruct a; discriminate.
Qed.

Lemma fold_join_rel rest acc :
  acc <> "." ->
  fold_left join_rel rest acc =
    match rest with [] => acc | _ => acc ++ "/" ++ slash_join rest end.
Proof.
  revert acc. induction rest as [|m rest IH]; intros acc Hacc; [reflexivity|].
  cbn [fold_left]. unfold join_rel at 2.
  destruct (String.eqb_spec acc ".") as [E|_]; [contradiction|].
  rewrite IH by apply app_slash_not_dot.
  destruct rest as [|m' rest]; [reflexivity|].
  cbn [slash_join]. now rewrite str_app_assoc.
Qed.

Lemma canonical_title_slash n rest :
  n <> "." -> canonical_title (n :: rest) = slash_join (n :: rest).
Proof.
  intros Hn. unfold canonical_title. cbn [fold_left].
  unfold join_rel at 2. cbn [String.eqb Ascii.eqb Bool.eqb].
  rewrite fold_join_rel by exact Hn.
  destruct rest; reflexivity.
Qed.

Lemma no_slash_app_slash (a s : string) : no_slash (a ++ "/" ++ s) = false.
Proof. induction a as [|c a IH]; cbn in *; [reflexivity|now rewrite IH, andb_false_r]. Qed.

Lemma split_at_slash (a b s1 s2 : string) :
  no_slash a = true -> no_slash b = true ->
  a ++ "/" ++ s1 = b ++ "/" ++ s2 -> a = b /\ s1 = s2.
Proof.
  revert b. induction a as [|c a IH]; intros b Ha Hb H.
  - destruct b as [|c' b]; cbn in H.
    + injection H as H. auto.
    + injection H as Hc _. subst c'. discriminate Hb.
  - destruct b as [|c' b]; cbn in H.
    + injection H as Hc _. subst c. discriminate Ha.
    + injection H as Hc H. subst c'.
      cbn in Ha, Hb. apply andb_true_iff in Ha as [_ Ha].
      apply andb_true_iff in Hb as [_ Hb].
      destruct (IH b Ha Hb H) as [-> ->]. auto.
Qed.

Lemma slash_join_inj l1 l2 :
  l1 <> [] -> l2 <> [] ->
  forallb no_slash l1 = true -> forallb no_slash l2 = true ->
  slash_join l1 = slash_join l2 -> l1 = l2.
Proof.
  revert l2. induction l1 as [|a r1 IH]; intros l2 N1 N2 F1 F2 H; [contradiction|].
  destruct l2 as [|b r2]; [contradiction|].
  cbn in F1, F2. apply andb_true_iff in F1 as [Fa F1]. apply andb_true_iff in F2 as [Fb F2].
  destruct r1 as [|a' r1], r2 as [|b' r2]; cbn [slash_join] in H.
  - now subst.
  - subst a. now rewrite no_slash_app_slash in Fa.
  - subst b. now rewrite no_slash_app_slash in Fb.
  - destruct (split_at_slash _ _ _ _ Fa Fb H) as [-> Hr].
    f_equal. apply IH; auto; discriminate.
Qed.

Lemma names_ok_dir_kids e k :
  names_ok e = true -> In k (dir_kids e) ->
  valid_name (name_of k) = true /\ names_ok k = true.
Proof.
  induction e as [n ks _ | n | n t IHt | n] using entry_ind; cbn; intros Hok Hin;
    try contradiction.
  - rewrite forallb_forall in Hok. apply Hok, andb_true_iff in Hin. exact Hin.
  - auto.
Qed.

Lemma lookup_in_names p : forall e e',
  names_ok e = true -> lookup_in e p = Some e' -> forallb valid_name p = true.
Proof.
  induction p as [|n rest IH]; intros e e' Hok Hl; [reflexivity|].
  cbn in Hl.
  destruct (find (fun k => String.eqb (name_of k) n) (dir_kids e)) as [k|] eqn:Hf;
    [|discriminate].
  apply find_some in Hf as [Hin Hn]. apply String.eqb_eq in Hn. subst n.
  destruct (names_ok_dir_kids e k Hok Hin) as [Hv Hk].
  cbn. rewrite Hv. cbn. eapply IH; eauto.
Qed.

Lemma valid_name_facts n : valid_name n = true -> n <> "." /\ no_slash n = true.
Proof.
  unfold valid_name. intros H.
  apply andb_true_iff in H as [H Hs]. apply andb_true_iff in H as [H _].
  apply andb_true_iff in H as [_ Hd].
  split; [|exact Hs]. intros ->. discriminate Hd.
Qed.

Lemma forallb_valid_no_slash p : forallb valid_name p = true -> forallb no_slash p = true.
Proof.
  induction p as [|n p IH]; cbn; [reflexivity|].
  intros H. apply andb_true_iff in H as [Hn Hp].
  rewrite (proj2 (valid_name_facts n Hn)). auto.
Qed.

(** Claim C7: two different entries under the publish root (different
    paths from it, in a tree whose names are valid POSIX file names)
    never get the same canonical title. *)
Theorem canonical_titles_unique root_kids p1 p2 e1 e2 :
  names_ok (EDir "." root_kids) = true ->
  entry_at root_kids p1 = Some e1 ->
  entry_at root_kids p2 = Some e2 ->
  p1 <> p2 ->
  canonical_title p1 <> canonical_title p2.
Proof.
  intros Hok H1 H2 Hne Heq.
  destruct p1 as [|n1 r1]; [discriminate|]. destruct p2 as [|n2 r2]; [discriminate|].
  apply (lookup_in_names _ _ _ Hok) in H1. apply (lookup_in_names _ _ _ Hok) in H2.
  assert (V1 := H1). assert (V2 := H2).
  cbn in V1, V2. apply andb_true_iff in V1 as [V1 _]. apply andb_true_iff in V2 as [V2 _].
  rewrite !canonical_title_slash in Heq
    by (apply valid_name_facts; assumption).
  apply Hne, slash_join_inj; try discriminate; auto using forallb_valid_no_slash.
Qed.

(** ** The aggregator ([PublishStats]) *)

Record publish_stats := {
  ps_success_count : nat;
  ps_created_count : nat;
  ps_updated_count : nat;
  ps_errors : list (string * string)     (* path, type *)
}.

Definition empty_stats : publish_stats :=
  {| ps_success_count := 0; ps_created_count := 0; ps_updated_count := 0;
     ps_errors := [] |}.

(** [operation == 'created'] on a [result.get('operation')] value. *)
Definition op_is (operation : option string) (name : string) : bool :=
  match operation with Some o => String.eqb o name | None => false end.

Definition add_success (s : publish_stats) (operation : option string) : publish_stats :=
  {| ps_success_count := S (ps_success_count s);
     ps_created_count :=
       if op_is operation "created"
       then S (ps_created_count s) else ps_created_count s;
     ps_updated_count :=
       if op_is operation "updated"
       then S (ps_updated_count s) else ps_updated_count s;
     ps_errors := ps_errors s |}.

Definition add_error (s : publish_stats) (error_info : string * string) : publish_stats :=
  {| ps_success_count := ps_success_count s; ps_created_count := ps_created_count s;
     ps_updated_count := ps_updated_count s; ps_errors := app (ps_errors s) [error_info] |}.

(** Every [add_success] / [add_error] runs under [self.lock], so each is
    one atomic step; the aggregator after a run is the fold of its
    recording events, in the order the lock was taken. *)
Definition record (s : publish_stats) (e : event) : publish_stats :=
  match e with
  | EvRecordSuccess op => add_success s op
  | EvRecordError path kind => add_error s (path, kind)
  | _ => s
  end.

Definition stats_after (tr : list event) : publish_stats := fold_left record tr empty_stats.

Definition op_name (op : operation) : string :=
  match op with OpCreated => "created" | OpUpdated => "updated" end.

(** ** [publishFolder] and [processMarkdownFile] *)

Fixpoint iterM {A} (f : A -> M unit) (l : list A) : M unit :=
  match l with
  | [] => ret tt
  | x :: xs => f x ;;; iterM f xs
  end.

(** [try: future.result() except Exception: log]: an exception raised in
    a worker is swallowed by the waiting loop. *)
Definition swallow (m : M unit) : M unit := (trace m, Ok tt).

Section Publisher.
Variable cfg : config.
Variable R : remote.

(** A [createPage] call, bracketed by call/return markers. *)
Definition upsert_traced (title : string) (parentPageID : option string) : M pub_result :=
  tell [EvUpsertCall title] ;;;
  r <- createPage cfg R title parentPageID ;;
  tell [EvUpsertDone title (success r)] ;;;
  ret r.

(** [processMarkdownFile] (the markdown rendering and the attachment
    upload do not touch the aggregator and are left out; the recorded
    path is represented by the file's relative title). *)
Definition processMarkdownFile (rel_path : string) (parentPageID : option string) : M unit :=
  result <- upsert_traced rel_path parentPageID ;;
  match result with
  | PROk _ op => tell [EvRecordSuccess (Some (op_name op))]
  | PRFail _ _ => tell [EvRecordError rel_path "file"]
  end.

(** [publishFolder] on the directory [e] resolves to, whose relative
    path is [rel]: phase 1 walks the subdirectories sequentially, phase 2
    submits the markdown files to the pool and waits for them.  The
    workers' runs are laid out one after the other after the
    submissions; since every aggregator update is atomic, any other
    interleaving yields the same counters and the same errors, possibly
    in another order: the relative order of different workers' events is
    one choice among those the pool allows. *)
Fixpoint publish_dir (rel : string) (parentPageID : option string) (e : entry) {struct e}
  : M unit :=
  match e with
  | EDir _ kids =>
      iterM (fun dir_entry =>
               if is_dir dir_entry then
                 let rel_path := join_rel rel (name_of dir_entry) in
                 result <- upsert_traced rel_path parentPageID ;;
                 match result with
                 | PROk currentPageID op =>
                     tell [EvRecordSuccess (Some (op_name op))] ;;;
                     publish_dir rel_path (Some currentPageID) dir_entry
                 | PRFail _ _ => tell [EvRecordError rel_path "directory"]
                 end
               else ret tt) kids ;;;
      let files := filter (fun k => negb (is_dir k) && is_file k && is_md (name_of k)) kids in
      tell (map (fun f => EvSubmit (join_rel rel (name_of f)) parentPageID) files) ;;;
      iterM (fun f => swallow (processMarkdownFile (join_rel rel (name_of f)) parentPageID))
            files
  | ESymlink _ t => publish_dir rel parentPageID t
  | _ => ret tt
  end.

Definition publishFolder (root_kids : list entry) : M unit :=
  publish_dir "." None (EDir "." root_kids).

End Publisher.

(** ** [main.py] *)

(** The legacy module globals [main] imports: plain integers bound to 0
    at import time, never reassigned ([publish_errors], in contrast, is
    the aggregator's own list object). *)
Definition success_count : nat := 0.
Definition created_count : nat := 0.
Definition updated_count : nat := 0.

Section Driver.
Variable cfg : config.
Variable R : remote.

(** The script as written: the migration block deletes every page the
    search returns, then [sys.exit(0)]; nothing after it runs. *)
Definition main_run (bs : list batch_resp) : M unit :=
  pages <- searchPages bs ;;
  deletePages R pages ;;;
  tell [EvExit 0].

(** Lines 59-92, after the [sys.exit(0)]: the summary report. *)
Definition summary_report (stats : publish_stats) : M unit :=
  let publish_errors := ps_errors stats in
  tell [EvSummary success_count created_count updated_count (length publish_errors)] ;;;
  match publish_errors with
  | [] => tell [EvExit 0]
  | _ => tell [EvExit 1]
  end.

End Driver.

(** ** Facts about the driver *)

Definition is_list (e : event) : bool :=
  match e with EvList _ => true | _ => false end.

Definition is_summary (e : event) : bool :=
  match e with EvSummary _ _ _ _ => true | _ => false end.

Definition is_record_error (e : event) : bool :=
  match e with EvRecordError _ _ => true | _ => false end.

Definition is_record_success_of (name : string) (e : event) : bool :=
  match e with EvRecordSuccess op => op_is op name | _ => false end.

Definition is_record_success (e : event) : bool :=
  match e with EvRecordSuccess _ => true | _ => false end.

Section DriverFacts.
Variable cfg : config.
Variable R : remote.

Lemma search_pages_loop_lists n bs found :
  exists t l, search_pages_loop n bs found = (t, Ok l) /\ forallb is_list t = true.
Proof.
  revert n found. induction bs as [|b rest IH]; intros n found.
  - cbn. do 2 eexists; split; reflexivity.
  - cbn [search_pages_loop]. rewrite tell_bind.
    destruct b as [|st ids nx].
    + cbn. do 2 eexists; split; reflexivity.
    + destruct (negb (st =? 200)); [cbn; do 2 eexists; split; reflexivity|].
      destruct nx; [|cbn; do 2 eexists; split; reflexivity].
      destruct (IH (S n) (app found ids)) as [t [l [E F]]].
      rewrite E. cbn. do 2 eexists; split; [reflexivity|exact F].
Qed.

Lemma searchPages_lists bs :
  exists t, searchPages bs = (t, Ok (found_pages bs)) /\ forallb is_list t = true.
Proof.
  unfold found_pages, searchPages.
  destruct (search_pages_loop_lists 0 bs []) as [t [l [E F]]].
  rewrite E. cbn. eexists; split; [reflexivity|exact F].
Qed.

Lemma main_run_eq bs :
  exists t0, forallb is_list t0 = true /\
  main_run R bs =
    (app t0 (app (map EvDelete (delete_prefix R (found_pages bs)))
                 (if all_delete_respond R (found_pages bs) then [EvExit 0] else [])),
     if all_delete_respond R (found_pages bs) then Ok tt else Raise ExnRequest).
Proof.
  destruct (searchPages_lists bs) as [t0 [E F]].
  exists t0. split; [exact F|].
  unfold main_run. rewrite (bind_ok _ _ _ _ E).
  unfold deletePages. destruct (delete_loop_eq R (found_pages bs)) as [Ht Hr].
  rewrite (surjective_M (delete_loop R (found_pages bs))), Ht, Hr.
  destruct (all_delete_respond R (found_pages bs)); cbn; rewrite ?app_nil_r; reflexivity.
Qed.

Lemma no_summary_deletes ids : existsb is_summary (map EvDelete ids) = false.
Proof. induction ids; cbn; auto. Qed.

Lemma main_run_no_summary bs : existsb is_summary (trace (main_run R bs)) = false.
Proof.
  destruct (main_run_eq bs) as [t0 [F E]]. rewrite E. cbn [trace fst].
  rewrite existsb_app. replace (existsb is_summary t0) with false.
  - rewrite existsb_app.
    rewrite no_summary_deletes.
    destruct (all_delete_respond R (found_pages bs)); reflexivity.
  - clear E. induction t0 as [|e t0 IH]; [reflexivity|].
    cbn in F |- *. apply andb_true_iff in F as [Fe Ft].
    destruct e; try discriminate. cbn. now apply IH.
Qed.

End DriverFacts.

(** The errors the aggregator holds after a run, in recording order. *)
Definition recorded_errors (tr : list event) : list (string * string) :=
  flat_map (fun e => match e with EvRecordError p k => [(p, k)] | _ => [] end) tr.

Lemma fold_record tr s :
  fold_left record tr s =
    {| ps_success_count := ps_success_count s + length (filter is_record_success tr);
       ps_created_count :=
         ps_created_count s + length (filter (is_record_success_of "created") tr);
       ps_updated_count :=
         ps_updated_count s + length (filter (is_record_success_of "updated") tr);
       ps_errors := app (ps_errors s) (recorded_errors tr) |}.
Proof.
  revert s. induction tr as [|e tr IH]; intros s.
  - destruct s; cbn. rewrite !Nat.add_0_r, app_nil_r. reflexivity.
  - cbn [fold_left]. rewrite IH. clear IH.
    destruct e; cbn; rewrite ?Nat.add_succ_r; try reflexivity.
    + match goal with |- context [op_is ?o "created"] =>
        destruct (op_is o "created"), (op_is o "updated") end; cbn;
        rewrite ?Nat.add_succ_r; reflexivity.
    + now rewrite <- app_assoc.
Qed.

Lemma recorded_errors_length tr :
  length (recorded_errors tr) = length (filter is_record_error tr).
Proof. induction tr as [|e tr IH]; [reflexivity|]. destruct e; cbn; auto. Qed.

Definition is_upsert_call (title : string) (e : event) : bool :=
  match e with EvUpsertCall t => String.eqb t title | _ => false end.

(** ** A concrete store *)

Definition demo_cfg : config :=
  {| confluence_search_pattern := "AUTO"; confluence_parent_page_id := "100" |}.

Definition demo_dup_body : create_body :=
  {| cb_id := None; cb_message := Some "A page with this title already exists" |}.

(** The search raises for [outage.md]; the POST raises for [a] and is
    rejected for [rej] (500) and [dup] (400, duplicate title); the direct
    lookup finds page 7 at its second try; page p1 is titled
    [guide.md  AUTO], page p2 [old.md  AUTO]. *)
Definition demo_remote : remote :=
  {| r_search := fun t _ _ =>
       if String.eqb t "outage.md  AUTO" then SRExc else SRResp 200 [];
     r_detail := fun _ _ => DTExc;
     r_create := fun t _ =>
       if String.eqb t "a  AUTO" then CRExc
       else if String.eqb t "rej  AUTO" then
         CRResp 500 (Some {| cb_id := None; cb_message := Some "Internal error" |})
       else if String.eqb t "dup  AUTO" then CRResp 400 (Some demo_dup_body)
       else CRResp 200 (Some {| cb_id := Some ("id:" ++ t); cb_message := None |});
     r_update := fun _ _ => URResp 200 true None;
     r_direct := fun _ n => if (n =? 1)%nat then DRResp 200 [("7", Some 4)] else DRResp 200 [];
     r_fetch := fun id =>
       if String.eqb id "p1" then TRResp 200 (Some "guide.md  AUTO")
       else if String.eqb id "p2" then TRResp 200 (Some "old.md  AUTO")
       else TRExc;
     r_delete := fun _ => DLResp 204 |}.

Definition demo_batches : list batch_resp := [BRResp 200 ["p1"; "p2"] false].

(** A store whose search hits carry no version: the details of [h1] give
    version 5, those of [h2] raise; the DELETE of page [bad] raises. *)
Definition demo_remote_v : remote :=
  {| r_search := fun t _ _ =>
       if String.eqb t "v.md  AUTO" then
         SRResp 200 [{| hit_id := "h1"; hit_version := None; hit_title := "v.md  AUTO" |}]
       else if String.eqb t "x.md  AUTO" then
         SRResp 200 [{| hit_id := "h2"; hit_version := None; hit_title := "x.md  AUTO" |}]
       else SRResp 200 [];
     r_detail := fun id _ => if String.eqb id "h1" then DTResp 200 (Some 5) else DTExc;
     r_create := r_create demo_remote;
     r_update := r_update demo_remote;
     r_direct := r_direct demo_remote;
     r_fetch := r_fetch demo_remote;
     r_delete := fun id => if String.eqb id "bad" then DLExc else DLResp 204 |}.

(** Six pages, of which only [p2] is an orphan (1/6 is under 20%). *)
Definition demo_batches_n : list batch_resp :=
  [BRResp 200 ["p2"; "q1"; "q2"; "q3"; "q4"; "q5"] false].

Definition demo_tree : list entry := [EDir "docs" [EFile "guide.md"]; EFile "readme.md"].

Definition demo_lines : list string := ["![a](x/a.png)"; "text"; "![b](y/b.png)"].

(** ** Claims about the driver and the publisher *)

(** Claim C1 (as amended): a run of the script as written, in which
    every DELETE request responds, sends the search requests and then one
    DELETE for every page id the paginated search returns, in order and
    whether the page is an orphan or not, and exits with status 0: it
    neither publishes nor invokes the reconciliation, whose gate comes
    after the [sys.exit(0)]. *)
Theorem main_run_deletes_every_found_page (R : remote) bs :
  all_delete_respond R (found_pages bs) = true ->
  exists t0, forallb is_list t0 = true /\
  main_run R bs = (app t0 (app (map EvDelete (found_pages bs)) [EvExit 0]), Ok tt).
Proof.
  intros Hall.
  destruct (main_run_eq R bs) as [t0 [F E]].
  exists t0. split; [exact F|].
  rewrite E, Hall, (delete_prefix_all R _ Hall). reflexivity.
Qed.

(** Claim C1, counterexample: pages p1 and p2, whose recovered titles
    guide.md and old.md are both in the expected set (neither is an
    orphan), are both deleted by the run, in which no publish error was
    recorded nor any publish attempted. *)
Lemma main_run_deletes_expected_page :
  orphans_of demo_cfg demo_remote ["guide.md"; "old.md"] (found_pages demo_batches) = [] /\
  found_pages demo_batches = ["p1"; "p2"] /\
  main_run demo_remote demo_batches =
    ([EvList 0; EvDelete "p1"; EvDelete "p2"; EvExit 0], Ok tt).
Proof. vm_compute. repeat split; reflexivity. Qed.

(** Claim C5, failing input: under the root, directory [a] comes before
    directory [b]; the search finds nothing for [a] and its creating POST
    raises.  The exception escapes [publishFolder]: [b] is never
    upserted and no failure is recorded.  When the POST for the first
    directory is instead answered with status 500 ([rej]), the failure is
    recorded once and [b] is upserted. *)
Theorem publishFolder_create_exception_aborts :
  let run := publishFolder demo_cfg demo_remote
               [EDir "a" [EFile "x.md"]; EDir "b" [EFile "y.md"]] in
  let run' := publishFolder demo_cfg demo_remote
               [EDir "rej" [EFile "x.md"]; EDir "b" [EFile "y.md"]] in
  result run = Raise ExnRequest /\
  existsb (is_upsert_call "b") (trace run) = false /\
  existsb is_record_error (trace run) = false /\
  result run' = Ok tt /\
  existsb (is_upsert_call "b") (trace run') = true /\
  filter is_record_error (trace run') = [EvRecordError "rej" "directory"].
Proof. vm_compute. repeat split; reflexivity. Qed.

(** Claim C8 (as amended): the aggregator's success, created and updated
    counters are the numbers of successes, of [created] and of [updated]
    outcomes it recorded; the script as written prints no summary; the
    summary block written after the migration's exit prints as FAILED
    total the number of recorded failures ([publish_errors] is the
    aggregator's own list). *)
Theorem main_run_summary_counts (R : remote) bs tr :
  existsb is_summary (trace (main_run R bs)) = false /\
  ps_success_count (stats_after tr) = length (filter is_record_success tr) /\
  ps_created_count (stats_after tr) = length (filter (is_record_success_of "created") tr) /\
  ps_updated_count (stats_after tr) = length (filter (is_record_success_of "updated") tr) /\
  exists s c u code,
    trace (summary_report (stats_after tr)) =
      [EvSummary s c u (length (filter is_record_error tr)); EvExit code].
Proof.
  split; [apply main_run_no_summary|].
  unfold stats_after. rewrite fold_record. cbn [ps_success_count ps_created_count
    ps_updated_count ps_errors empty_stats].
  split; [reflexivity|]. split; [reflexivity|]. split; [reflexivity|].
  unfold summary_report. cbn [ps_errors app]. rewrite recorded_errors_length.
  destruct (recorded_errors tr); do 4 eexists; reflexivity.
Qed.

(** Claim C8, counterexample: the run over the demo store prints no
    summary at all. *)
Lemma main_run_prints_no_summary :
  trace (main_run demo_remote demo_batches) =
    [EvList 0; EvDelete "p1"; EvDelete "p2"; EvExit 0] /\
  existsb is_summary (trace (main_run demo_remote demo_batches)) = false.
Proof. vm_compute. split; reflexivity. Qed.


(** ** Witnesses *)

Lemma createPage_duplicate_title_fallback_witness :
  result (findPageByTitle demo_cfg demo_remote "dup" None) = Ok None /\
  result (createPage demo_cfg demo_remote "dup" None) = Ok (PROk "7" OpUpdated).
Proof.
  assert (H1 : result (findPageByTitle demo_cfg demo_remote "dup" None) = Ok None)
    by (vm_compute; reflexivity).
  split; [exact H1|].
  rewrite (createPage_duplicate_title_fallback demo_cfg demo_remote "dup" None 400
             demo_dup_body H1); vm_compute; reflexivity.
Defined.

Lemma createPage_search_outage_is_absence_witness :
  (forall n, (n < 3)%nat ->
     search_miss (r_search demo_remote (full_title_of demo_cfg "outage.md")
                   (parent_id_to_use demo_cfg None) n) = true) /\
  createPage demo_cfg demo_remote "outage.md" None =
    createPage demo_cfg (with_empty_search demo_remote) "outage.md" None.
Proof.
  assert (H : forall n, (n < 3)%nat ->
     search_miss (r_search demo_remote (full_title_of demo_cfg "outage.md")
                   (parent_id_to_use demo_cfg None) n) = true)
    by (intros n _; vm_compute; reflexivity).
  split; [exact H|].
  exact (proj2 (proj2 (createPage_search_outage_is_absence demo_cfg demo_remote
                         "outage.md" None H))).
Defined.

Lemma cleanupOrphanPages_no_orphans_witness :
  orphans_of demo_cfg demo_remote ["guide.md"; "old.md"] (found_pages demo_batches) = [] /\
  result (cleanupOrphanPages demo_cfg demo_remote ["guide.md"; "old.md"] demo_batches) =
    Ok {| deleted_count := 0; orphans := []; skipped := Some false; reason := None |}.
Proof.
  assert (H : orphans_of demo_cfg demo_remote ["guide.md"; "old.md"]
                (found_pages demo_batches) = []) by (vm_compute; reflexivity).
  split; [exact H|].
  exact (proj1 (cleanupOrphanPages_no_orphans demo_cfg demo_remote
                  ["guide.md"; "old.md"] demo_batches H)).
Defined.

Lemma canonical_titles_unique_witness :
  let root_kids := [EDir "docs" [EFile "a.md"]; EFile "docs-a.md"] in
  names_ok (EDir "." root_kids) = true /\
  entry_at root_kids ["docs"; "a.md"] = Some (EFile "a.md") /\
  entry_at root_kids ["docs-a.md"] = Some (EFile "docs-a.md") /\
  canonical_title ["docs"; "a.md"] <> canonical_title ["docs-a.md"].
Proof.
  cbv zeta.
  assert (H0 : names_ok (EDir "." [EDir "docs" [EFile "a.md"]; EFile "docs-a.md"]) = true)
    by (vm_compute; reflexivity).
  assert (H1 : entry_at [EDir "docs" [EFile "a.md"]; EFile "docs-a.md"] ["docs"; "a.md"]
               = Some (EFile "a.md")) by (vm_compute; reflexivity).
  assert (H2 : entry_at [EDir "docs" [EFile "a.md"]; EFile "docs-a.md"] ["docs-a.md"]
               = Some (EFile "docs-a.md")) by (vm_compute; reflexivity).
  split; [exact H0|]. split; [exact H1|]. split; [exact H2|].
  exact (canonical_titles_unique _ _ _ _ _ H0 H1 H2 ltac:(discriminate)).
Defined.

(** ** Further properties of the controller *)

Lemma result_bind_ok {A B} (m : M A) (f : A -> M B) a :
  result m = Ok a -> result (bind m f) = result (f a).
Proof.
  unfold result, bind. destruct m as [t r]. cbn. intros ->. destruct (f a); reflexivity.
Qed.

Lemma result_bind_raise {A B} (m : M A) (f : A -> M B) e :
  result m = Raise e -> result (bind m f) = Raise e.
Proof. unfold result, bind. destruct m as [t r]. cbn. intros ->. reflexivity. Qed.

Lemma result_tell {A} evs (m : M A) : result (tell evs ;;; m) = result m.
Proof. rewrite tell_bind. reflexivity. Qed.

Lemma trace_tell {A} evs (m : M A) : trace (tell evs ;;; m) = app evs (trace m).
Proof. rewrite tell_bind. reflexivity. Qed.

Lemma direct_ok R t n :
  result (findPageByTitleDirect R t n) = Ok (direct_result t (r_direct R t n)).
Proof. now rewrite findPageByTitleDirect_eq. Qed.

Section ControllerMore.
Variable cfg : config.
Variable R : remote.

Lemma findPageByTitle_ok title parent :
  exists o, result (findPageByTitle cfg R title parent) = Ok o.
Proof.
  destruct (findPageByTitle_shape cfg R title parent) as [k [o [_ [Hr _]]]]. eauto.
Qed.

Lemma createNewPage_raise t p e :
  result (createNewPage cfg R t p) = Raise e <->
  r_create R t (parent_id_to_use cfg p) = CRExc /\ e = ExnRequest.
Proof.
  unfold createNewPage. cbv zeta. rewrite result_tell.
  destruct (r_create R t (parent_id_to_use cfg p)) as [|st [body|]] eqn:Hc.
  - cbn. split; [intros H; inversion H; auto|intros [_ ->]; reflexivity].
  - split; [|intros [H _]; discriminate].
    intros H. exfalso. revert H.
    destruct (st =? 200), (cb_id body); try discriminate.
    all: destruct (is_duplicate_title_error _); [|discriminate].
    all: rewrite (result_bind_ok _ _ _ (direct_ok R t 0)).
    all: destruct (direct_result t (r_direct R t 0)) as [q|].
    all: try (destruct (updatePage_ok R (pg_id q) t (pg_version q)) as [r Hr];
              rewrite Hr; discriminate).
    all: rewrite result_tell, (result_bind_ok _ _ _ (direct_ok R t 1)).
    all: destruct (direct_result t (r_direct R t 1)) as [q|]; [|discriminate].
    all: destruct (updatePage_ok R (pg_id q) t (pg_version q)) as [r Hr];
         rewrite Hr; discriminate.
  - cbn. split; [discriminate|intros [H _]; discriminate].
Qed.

Lemma createPage_result_ok_or_raise title parent :
  result (findPageByTitle cfg R title parent) = Ok None ->
  result (createPage cfg R title parent) =
    result (createNewPage cfg R (full_title_of cfg title) parent).
Proof.
  intros H. rewrite (createPage_bind cfg R title parent None H). reflexivity.
Qed.

End ControllerMore.

(** *** Properties *)

Lemma trace_bind_prefix {A B} (m : M A) (f : A -> M B) :
  exists rest, trace (bind m f) = app (trace m) rest.
Proof.
  unfold trace, bind. destruct m as [t r]. destruct r as [a|e].
  - destruct (f a) as [t2 r2]. eexists; reflexivity.
  - exists []. cbn. now rewrite app_nil_r.
Qed.

Section ControllerProps.
Variable cfg : config.
Variable R : remote.

Lemma search_attempt_later s a n :
  exists rest, trace (search_attempt R s a (S n)) =
    EvSleep (nth (S n) retry_delays 0) :: EvSearch s a (S n) :: rest.
Proof.
  unfold search_attempt. cbn [Nat.ltb Nat.leb].
  rewrite trace_tell, trace_tell. eexists; reflexivity.
Qed.

(** [updatePage] never raises: it sends one PUT carrying [version + 1]
    and reports success, for the same page id and with operation
    [updated], exactly when the PUT is answered 200 with a JSON body. *)
Theorem updatePage_outcome page_id title version :
  trace (updatePage R page_id title version) = [EvUpdate page_id title (version + 1)] /\
  match result (updatePage R page_id title version) with
  | Ok (PROk id op) =>
      id = page_id /\ op = OpUpdated /\
      exists m, r_update R page_id (version + 1) = URResp 200 true m
  | Ok (PRFail _ _) => forall m, r_update R page_id (version + 1) <> URResp 200 true m
  | Raise _ => False
  end.
Proof.
  split; [apply updatePage_trace|].
  unfold updatePage. rewrite result_tell.
  destruct (r_update R page_id (version + 1)) as [|st ok msg] eqn:Hu.
  - cbn. intros m; discriminate.
  - destruct ok; cbn.
    + destruct (st =? 200) eqn:Hst; cbn.
      * apply Z.eqb_eq in Hst. subst. repeat split; eauto.
      * apply Z.eqb_neq in Hst. intros m H. inversion H. contradiction.
    + intros m H. discriminate.
Qed.

(** A creating POST that is answered without a page id, with an error
    message that is not a duplicate-title message, makes [createNewPage]
    return that message and status after that one request: no lookup
    and no update follow. *)
Theorem createNewPage_rejected_no_lookup title parent st body :
  r_create R title (parent_id_to_use cfg parent) = CRResp st (Some body) ->
  created_ok st body = false ->
  is_duplicate_title_error (error_message_of body) = false ->
  createNewPage cfg R title parent =
    ([EvCreate title (parent_id_to_use cfg parent)],
     Ok (PRFail (error_message_of body) (SCode st))).
Proof.
  intros Hc Hok Hdup. unfold createNewPage. cbv zeta. rewrite Hc.
  unfold created_ok, error_message_of in *.
  destruct (st =? 200), (cb_id body); cbn in Hok; try discriminate;
    cbn; rewrite Hdup; reflexivity.
Qed.

(** [createPage] raises an exception exactly when the search found no
    page and the creating POST raised; every other failure (search,
    update, rejected creation, direct lookups) is returned as a failed
    result. *)
Theorem createPage_raises_iff title parent e :
  result (createPage cfg R title parent) = Raise e <->
  result (findPageByTitle cfg R title parent) = Ok None /\
  r_create R (full_title_of cfg title) (parent_id_to_use cfg parent) = CRExc /\
  e = ExnRequest.
Proof.
  destruct (findPageByTitle_ok cfg R title parent) as [o Ho].
  rewrite Ho. destruct o as [p|].
  - rewrite (createPage_bind cfg R title parent (Some p) Ho). cbv zeta.
    unfold result at 1. cbn [snd].
    destruct (updatePage_ok R (pg_id p) (full_title_of cfg title) (pg_version p)) as [r Hr].
    rewrite Hr.
    split; [discriminate|intros [H _]; discriminate].
  - rewrite (createPage_result_ok_or_raise cfg R title parent Ho), createNewPage_raise.
    split; [intros [H1 H2]; auto|intros [_ [H1 H2]]; auto].
Qed.

(** When the first search hit carries no version number, [createPage]
    fetches the page's details and updates it with that version plus
    one; a detail response other than 200, or one without a version
    number, is taken as version 1 (the PUT then carries version 2). *)
Theorem createPage_version_from_details title parent h hs st ov :
  let ft := full_title_of cfg title in
  let anc := parent_id_to_use cfg parent in
  r_search R ft anc 0 = SRResp 200 (h :: hs) ->
  hit_version h = None ->
  r_detail R (hit_id h) 0 = DTResp st ov ->
  let v := if st =? 200 then match ov with Some v => v | None => 1 end else 1 in
  createPage cfg R title parent =
    ([EvSearch ft anc 0; EvDetail (hit_id h); EvUpdate (hit_id h) ft (v + 1)],
     result (updatePage R (hit_id h) ft v)).
Proof.
  intros ft anc Hs Hv Hd v.
  unfold createPage, findPageByTitle, max_retries. simpl seq. cbn [search_loop].
  fold (full_title_of cfg title). fold ft. fold anc.
  unfold search_attempt. cbn - [updatePage]. rewrite Hs. cbn - [updatePage].
  rewrite Hv. cbn - [updatePage]. rewrite Hd. cbn - [updatePage]. fold v.
  rewrite (surjective_M (updatePage R (hit_id h) ft v)), updatePage_trace.
  reflexivity.
Qed.

(** When the first search hit carries no version number and fetching
    the page's details raises, the attempt counts as a miss: the search
    is repeated after the 2 s retry delay. *)
Theorem findPageByTitle_detail_exception_retries title parent h hs :
  let ft := full_title_of cfg title in
  let anc := parent_id_to_use cfg parent in
  r_search R ft anc 0 = SRResp 200 (h :: hs) ->
  hit_version h = None ->
  r_detail R (hit_id h) 0 = DTExc ->
  exists rest,
    trace (findPageByTitle cfg R title parent) =
      EvSearch ft anc 0 :: EvDetail (hit_id h) :: EvSleep 2 :: EvSearch ft anc 1 :: rest.
Proof.
  intros ft anc Hs Hv Hd.
  assert (A0 : search_attempt R ft anc 0 = ([EvSearch ft anc 0; EvDetail (hit_id h)], Ok None)).
  { unfold search_attempt. cbn. rewrite Hs. cbn. rewrite Hv. cbn. rewrite Hd. reflexivity. }
  unfold findPageByTitle, max_retries. simpl seq. cbn [search_loop].
  fold (full_title_of cfg title). fold ft. fold anc.
  rewrite (bind_ok _ _ _ _ A0). unfold trace. cbn - [search_attempt search_loop].
  match goal with |- context [fst (bind (search_attempt R ft anc 1) ?g)] =>
    destruct (trace_bind_prefix (search_attempt R ft anc 1) g) as [r1 E1] end.
  destruct (search_attempt_later ft anc 0) as [r2 E2].
  unfold trace in E1, E2. rewrite E1, E2.
  exists (app r2 r1). reflexivity.
Qed.

End ControllerProps.

(** ** Further properties of the reconciliation *)

(** A batch after which [searchPages] requests the next one. *)
Definition has_more (b : batch_resp) : bool :=
  match b with BRResp status _ true => status =? 200 | _ => false end.

Definition batch_ids (b : batch_resp) : list string :=
  match b with BRResp _ ids _ => ids | BRExc => [] end.

(** The ids a final batch contributes. *)
Definition last_ids (b : batch_resp) : list string :=
  match b with BRResp status ids _ => if status =? 200 then ids else [] | BRExc => [] end.

(** The marker [old] starts at no position inside [t] of [t ++ old]. *)
Fixpoint marker_only_suffix (old t : string) : bool :=
  match t with
  | EmptyString => true
  | String _ t' => negb (String.prefix old (t ++ old)) && marker_only_suffix old t'
  end.

Lemma search_pages_loop_batches bs1 b bs2 n found :
  forallb has_more bs1 = true -> has_more b = false ->
  search_pages_loop n (app bs1 (b :: bs2)) found =
    (map EvList (seq n (S (length bs1))),
     Ok (app found (app (concat (map batch_ids bs1)) (last_ids b)))).
Proof.
  revert n found. induction bs1 as [|b1 bs1 IH]; intros n found Hm Hb.
  - cbn [app search_pages_loop]. rewrite tell_bind.
    destruct b as [|st ids [|]]; cbn in Hb |- *.
    + rewrite ?app_nil_r; reflexivity.
    + rewrite Hb. cbn. rewrite ?app_nil_r; reflexivity.
    + destruct (st =? 200); cbn; rewrite ?app_nil_r; reflexivity.
  - cbn in Hm. apply andb_true_iff in Hm as [H1 Hm].
    destruct b1 as [|st ids [|]]; cbn in H1; try discriminate.
    cbn [app search_pages_loop]. rewrite tell_bind. rewrite H1. cbn [negb].
    rewrite (IH (S n) (app found ids) Hm Hb). cbn.
    now rewrite !app_assoc.
Qed.

Lemma delete_loop_all R ids :
  all_delete_respond R ids = true -> delete_loop R ids = (map EvDelete ids, Ok tt).
Proof.
  induction ids as [|id rest IH]; [reflexivity|].
  cbn. destruct (r_delete R id); [discriminate|]. intros H.
  unfold all_delete_respond in IH. rewrite (IH H). reflexivity.
Qed.

Lemma orphans_of_sound cfg R expected pages o :
  In o (orphans_of cfg R expected pages) ->
  In (o_id o) pages /\
  (exists t, r_fetch R (o_id o) = TRResp 200 t /\
             o_title o = match t with Some x => x | None => "" end) /\
  o_base o = base_title_of cfg (o_title o) /\
  py_set_mem (o_base o) expected = false.
Proof.
  induction pages as [|id rest IH]; intros H; [destruct H|].
  assert (Hrest : In o (orphans_of cfg R expected rest) ->
                  In (o_id o) (id :: rest) /\
                  (exists t, r_fetch R (o_id o) = TRResp 200 t /\
                             o_title o = match t with Some x => x | None => "" end) /\
                  o_base o = base_title_of cfg (o_title o) /\
                  py_set_mem (o_base o) expected = false).
  { intros H'. destruct (IH H') as [A B]. split; [right; exact A|exact B]. }
  cbn in H. destruct (r_fetch R id) as [|st t] eqn:Hf; [auto|].
  destruct (st =? 200) eqn:Hst; [|auto].
  set (ft := match t with Some x => x | None => "" end) in H.
  destruct (py_set_mem (base_title_of cfg ft) expected) eqn:Hm; [auto|].
  destruct H as [<- | H]; [|auto].
  cbn. apply Z.eqb_eq in Hst. subst st.
  split; [left; reflexivity|]. split; [exists t; split; [exact Hf|reflexivity]|].
  split; [reflexivity|exact Hm].
Qed.

Lemma prefix_app_self (s u : string) : String.prefix s (s ++ u) = true.
Proof.
  induction s as [|c s IH]; [destruct u; reflexivity|].
  cbn. destruct (ascii_dec c c); [exact IH|contradiction].
Qed.

Lemma str_app_nil_r (s : string) : s ++ "" = s.
Proof. induction s as [|c s IH]; cbn; [reflexivity|now rewrite IH]. Qed.

Lemma prefix_refl (s : string) : String.prefix s s = true.
Proof. rewrite <- (str_app_nil_r s) at 2. apply prefix_app_self. Qed.

Lemma py_contains_of_prefix (sub s : string) :
  String.prefix sub s = true -> py_contains sub s = true.
Proof. intros H. destruct s; cbn [py_contains]; rewrite H; reflexivity. Qed.

Lemma py_contains_suffix (sub x : string) : py_contains sub (x ++ sub) = true.
Proof.
  induction x as [|c x IH].
  - apply py_contains_of_prefix, prefix_refl.
  - cbn [append py_contains]. rewrite IH. apply orb_true_r.
Qed.

Lemma replace_fuel_empty fuel old new : replace_fuel fuel old new "" = "".
Proof. destruct fuel; reflexivity. Qed.

Lemma substring_zero n s : substring n 0 s = "".
Proof.
  revert s. induction n as [|n IH]; intros s; destruct s; cbn; auto.
Qed.

Lemma replace_marker_suffix old t :
  old <> "" -> marker_only_suffix old t = true ->
  replace_fuel (String.length (t ++ old)) old "" (t ++ old) = t.
Proof.
  intros Hne. induction t as [|c t IH]; intros Hm.
  - cbn [append]. destruct old as [|c s]; [contradiction|].
    cbn [String.length replace_fuel].
    rewrite prefix_refl.
    cbn [append]. rewrite Nat.sub_diag, substring_zero. apply replace_fuel_empty.
  - cbn [marker_only_suffix] in Hm. apply andb_true_iff in Hm as [Hp Hm].
    apply negb_true_iff in Hp.
    cbn [append String.length replace_fuel]. cbn [append] in Hp. rewrite Hp.
    now rewrite (IH Hm).
Qed.

Section ReconcileProps.
Variable cfg : config.
Variable R : remote.

(** [searchPages] never raises.  When the first k responses are 200
    with a link to a next batch and the next one is not, it makes
    exactly k + 1 requests and returns the ids of those k batches, in
    order, followed by the ids of the last response if its status is
    200: a failure in the middle of the pagination keeps the ids already
    gathered. *)
Theorem searchPages_pagination bs1 b bs2 :
  forallb has_more bs1 = true -> has_more b = false ->
  searchPages (app bs1 (b :: bs2)) =
    (map EvList (seq 0 (S (length bs1))),
     Ok (app (concat (map batch_ids bs1)) (last_ids b))).
Proof. intros H1 H2. exact (search_pages_loop_batches bs1 b bs2 0 [] H1 H2). Qed.

(** When no DELETE raises, [deletePages] sends one DELETE per id, in
    order, whatever status codes the store answers with, and returns an
    empty list. *)
Theorem deletePages_all_respond ids :
  all_delete_respond R ids = true ->
  deletePages R ids = (map EvDelete ids, Ok []).
Proof.
  intros H. unfold deletePages. rewrite (delete_loop_all R ids H). cbn.
  now rewrite app_nil_r.
Qed.

(** A DELETE that raises ends [deletePages]: the exception escapes and
    the ids after it are not sent. *)
Theorem deletePages_exception_stops ids1 id ids2 :
  all_delete_respond R ids1 = true -> r_delete R id = DLExc ->
  deletePages R (app ids1 (id :: ids2)) = (map EvDelete (app ids1 [id]), Raise ExnRequest).
Proof.
  intros H1 H2. unfold deletePages.
  assert (Hp : delete_prefix R (app ids1 (id :: ids2)) = app ids1 [id]).
  { induction ids1 as [|i rest IH]; cbn; [now rewrite H2|].
    cbn in H1. destruct (r_delete R i); [discriminate|]. now rewrite (IH H1). }
  assert (Ha : all_delete_respond R (app ids1 (id :: ids2)) = false).
  { unfold all_delete_respond. rewrite forallb_app. cbn. now rewrite H2, andb_false_r. }
  destruct (delete_loop_eq R (app ids1 (id :: ids2))) as [Ht Hr].
  rewrite (surjective_M (delete_loop R _)), Ht, Hr.
  rewrite Hp, Ha. reflexivity.
Qed.

(** The cleanup never divides by zero: the orphan ratio is only
    computed when the search found at least one page. *)
Theorem cleanupOrphanPages_never_zero_division expected bs :
  result (cleanupOrphanPages cfg R expected bs) <> Raise ExnZeroDivision.
Proof. apply cleanupOrphanPages_no_zero_division. Qed.

(** Every orphan the cleanup reports is a page the search returned,
    whose title fetch was answered 200 with the reported title, whose
    base title is the one recovered from that title, and whose base
    title is not in the expected set. *)
Theorem cleanupOrphanPages_orphans_sound expected bs r o :
  result (cleanupOrphanPages cfg R expected bs) = Ok r ->
  In o (orphans r) ->
  In (o_id o) (found_pages bs) /\
  (exists t, r_fetch R (o_id o) = TRResp 200 t /\
             o_title o = match t with Some x => x | None => "" end) /\
  o_base o = base_title_of cfg (o_title o) /\
  py_set_mem (o_base o) expected = false.
Proof.
  destruct (cleanupOrphanPages_unfold cfg R expected bs) as [t0 [_ E]].
  rewrite E. clear E.
  destruct (found_pages bs) as [|p ps] eqn:Hp.
  - cbn. intros H. inversion H. subst. intros [].
  - cbv zeta. pose proof (orphans_of_sound cfg R expected (p :: ps)) as HS.
    set (O := orphans_of cfg R expected (p :: ps)) in *. clearbody O.
    destruct (0 <? length O)%nat;
      [destruct (20 * length (p :: ps) <? 100 * length O)%nat;
       [|destruct (all_delete_respond R (map o_id O))]|];
      cbn; intros H; inversion H; subst; cbn; try (intros []); apply HS.
Qed.

(** Whenever the cleanup returns skipped = false, it has sent one DELETE
    for each orphan it reports, in order, and its deleted_count is the
    number of those orphans, whatever status codes the DELETEs got. *)
Theorem cleanupOrphanPages_deleted_count expected bs r :
  result (cleanupOrphanPages cfg R expected bs) = Ok r ->
  skipped r = Some false ->
  deleted_count r = Z.of_nat (length (orphans r)) /\
  filter is_delete (trace (cleanupOrphanPages cfg R expected bs)) =
    map EvDelete (map o_id (orphans r)).
Proof.
  destruct (cleanupOrphanPages_unfold cfg R expected bs) as [t0 [F0 E]].
  rewrite E. clear E.
  destruct (found_pages bs) as [|p ps] eqn:Hp.
  - cbn. intros H. inversion H. subst. discriminate.
  - cbv zeta. set (O := orphans_of cfg R expected (p :: ps)). clearbody O.
    destruct (0 <? length O)%nat.
    + destruct (20 * length (p :: ps) <? 100 * length O)%nat.
      * cbn. intros H. inversion H. subst. discriminate.
      * destruct (all_delete_respond R (map o_id O)) eqn:Ha; cbn; intros H;
          inversion H; subst.
        intros _. cbn. split; [reflexivity|].
        rewrite app_comm_cons.
        change (EvFetch p :: map EvFetch ps) with (map EvFetch (p :: ps)).
        rewrite !filter_app, F0, filter_delete_fetches, filter_delete_deletes.
        now rewrite (delete_prefix_all R _ Ha).
    + cbn. intros H. inversion H. subst. intros _. cbn. split; [reflexivity|].
      try change (EvFetch p :: map EvFetch ps) with (map EvFetch (p :: ps)).
      rewrite filter_app, F0, filter_delete_fetches. reflexivity.
Qed.

(** Recovering the base title of a suffixed title gives the title back,
    when the title has no surrounding whitespace and the marker
    ["  " ++ pattern] occurs in the suffixed title only as its suffix. *)
Theorem base_title_of_full_title t :
  py_strip t = t ->
  marker_only_suffix ("  " ++ confluence_search_pattern cfg) t = true ->
  base_title_of cfg (full_title_of cfg t) = t.
Proof.
  intros Hs Hm. unfold base_title_of, full_title_of.
  rewrite <- (str_app_assoc t "  "), py_contains_suffix, str_app_assoc.
  unfold py_replace.
  rewrite (replace_marker_suffix _ t); [exact Hs|discriminate|exact Hm].
Qed.

End ReconcileProps.

(** ** Further properties of the aggregator *)

(** For every sequence of recordings the aggregator's created and
    updated counters together never exceed its success counter. *)
Theorem stats_created_updated_le_success tr :
  (ps_created_count (stats_after tr) + ps_updated_count (stats_after tr)
   <= ps_success_count (stats_after tr))%nat.
Proof.
  unfold stats_after. rewrite fold_record. cbn.
  induction tr as [|e tr IH]; [cbn; lia|].
  destruct e; cbn; try exact IH.
  match goal with |- context [op_is ?op "created"] => destruct op as [o|]; cbn; [|lia] end.
  all: try (destruct (String.eqb o "created") eqn:Hc, (String.eqb o "updated") eqn:Hu;
            cbn; try lia;
            apply String.eqb_eq in Hc, Hu; congruence).
Qed.


(** ** Further properties of the publisher *)

(** The events the controller functions emit: requests and sleeps. *)
Definition ctl_event (e : event) : bool :=
  match e with
  | EvSleep _ | EvSearch _ _ _ | EvDetail _ | EvCreate _ _ | EvUpdate _ _ _
  | EvDirect _ => true
  | _ => false
  end.

(** A tree in which no symlink resolves to a directory. *)
Fixpoint no_dir_symlink (e : entry) : bool :=
  match e with
  | EDir _ ks => forallb no_dir_symlink ks
  | ESymlink _ t => negb (is_dir t)
  | _ => true
  end.

(** The outcomes of the upserts that returned, in order. *)
Definition done_flags (tr : list event) : list bool :=
  flat_map (fun e => match e with EvUpsertDone _ b => [b] | _ => [] end) tr.

(** The aggregator recordings, in order: [true] for a success. *)
Definition record_flags (tr : list event) : list bool :=
  flat_map (fun e => match e with
                     | EvRecordSuccess _ => [true]
                     | EvRecordError _ _ => [false]
                     | _ => []
                     end) tr.

Lemma trace_bind_eq {A B} (m : M A) (f : A -> M B) :
  trace (bind m f) =
    app (trace m) (match result m with Ok a => trace (f a) | Raise _ => [] end).
Proof.
  unfold trace, result, bind. destruct m as [t [a|e]]; cbn.
  - destruct (f a); reflexivity.
  - now rewrite app_nil_r.
Qed.

Lemma Forall_trace_bind {A B} (P : event -> Prop) (m : M A) (f : A -> M B) :
  Forall P (trace m) -> (forall a, Forall P (trace (f a))) ->
  Forall P (trace (bind m f)).
Proof.
  intros H1 H2. rewrite trace_bind_eq. apply Forall_app. split; [exact H1|].
  destruct (result m); [apply H2|constructor].
Qed.

Ltac ctl_events :=
  repeat match goal with
  | |- Forall _ (trace (bind _ _)) => apply Forall_trace_bind; [|intros ?]
  | |- Forall _ (trace (ret _)) => constructor
  | |- Forall _ (trace (raise _)) => constructor
  | |- Forall _ (trace (tell _)) => repeat constructor
  | |- Forall _ (trace (let _ := _ in _)) => cbv zeta
  | |- Forall _ (trace (match ?x with _ => _ end)) => destruct x
  | |- Forall _ (trace (if ?x then _ else _)) => destruct x
  end.

Section PublisherProps.
Variable cfg : config.
Variable R : remote.

Let P (e : event) : Prop := ctl_event e = true.

Lemma search_loop_ctl st anc l : Forall P (trace (search_loop R st anc l)).
Proof.
  induction l as [|a l IH]; cbn [search_loop]; [constructor|].
  apply Forall_trace_bind; [unfold search_attempt; ctl_events|].
  intros [p|]; [constructor|]. destruct (a <? max_retries - 1)%nat; [exact IH|constructor].
Qed.

Lemma direct_ctl t n : Forall P (trace (findPageByTitleDirect R t n)).
Proof. unfold findPageByTitleDirect. ctl_events. Qed.

Lemma update_ctl id t v : Forall P (trace (updatePage R id t v)).
Proof. unfold updatePage. ctl_events. Qed.

Lemma createPage_ctl t parent : Forall P (trace (createPage cfg R t parent)).
Proof.
  unfold createPage. apply Forall_trace_bind; [apply search_loop_ctl|].
  intros [p|]; [apply update_ctl|].
  unfold createNewPage. ctl_events; solve [apply direct_ctl | apply update_ctl].
Qed.

Lemma createPage_no_publisher_event t parent x :
  In x (trace (createPage cfg R t parent)) -> ctl_event x = true.
Proof. intros H. exact (proj1 (Forall_forall _ _) (createPage_ctl t parent) x H). Qed.

End PublisherProps.

Lemma in_trace_iterM {A} (f : A -> M unit) l x :
  In x (trace (iterM f l)) -> exists y, In y l /\ In x (trace (f y)).
Proof.
  induction l as [|a l IH]; cbn [iterM]; [unfold trace, ret; cbn; tauto|].
  rewrite trace_bind_eq. intros H. apply in_app_or in H as [H|H]; [exists a; split; [left; reflexivity|exact H]|].
  destruct (result (f a)); [|cbn in H; destruct H].
  destruct (IH H) as [y [Hy Hx]]. exists y. split; [right; exact Hy|exact Hx].
Qed.

Lemma ctl_flags_nil tr :
  Forall (fun e => ctl_event e = true) tr -> done_flags tr = [] /\ record_flags tr = [].
Proof.
  induction 1 as [|e tr He _ [IH1 IH2]]; [split; reflexivity|].
  unfold done_flags, record_flags in *. cbn [flat_map].
  rewrite IH1, IH2. destruct e; discriminate || (split; reflexivity).
Qed.

Lemma done_flags_app a b : done_flags (app a b) = app (done_flags a) (done_flags b).
Proof. apply flat_map_app. Qed.

Lemma record_flags_app a b : record_flags (app a b) = app (record_flags a) (record_flags b).
Proof. apply flat_map_app. Qed.

Section PublisherProps2.
Variable cfg : config.
Variable R : remote.

Lemma publish_nondir_trace tg rel parent :
  is_dir tg = false -> trace (publish_dir cfg R rel parent tg) = [].
Proof.
  revert rel parent.
  induction tg as [n ks _ | n | n t IHt | n] using entry_ind; cbn; intros rel parent H;
    try discriminate; auto.
Qed.

Lemma upsert_traced_calls t0 parent t :
  In (EvUpsertCall t) (trace (upsert_traced cfg R t0 parent)) -> t = t0.
Proof.
  unfold upsert_traced. rewrite trace_tell. intros [H|H]; [congruence|].
  cbn [app] in H. rewrite trace_bind_eq in H.
  apply in_app_or in H as [H|H].
  - apply createPage_no_publisher_event in H. discriminate.
  - destruct (result (createPage cfg R t0 parent)); [|cbn in H; destruct H].
    rewrite trace_tell in H. destruct H as [H|[]]. discriminate.
Qed.

Lemma processMarkdownFile_calls p parent t :
  In (EvUpsertCall t) (trace (processMarkdownFile cfg R p parent)) -> t = p.
Proof.
  unfold processMarkdownFile. rewrite trace_bind_eq. intros H.
  apply in_app_or in H as [H|H]; [exact (upsert_traced_calls _ _ _ H)|].
  destruct (result (upsert_traced cfg R p parent)) as [[]|]; cbn in H;
    intuition discriminate.
Qed.

Lemma publish_dir_expected e : forall rel parent t,
  no_dir_symlink e = true ->
  In (EvUpsertCall t) (trace (publish_dir cfg R rel parent e)) ->
  In t (walk_titles rel e).
Proof.
  induction e as [n kids IH | n | n tg _ | n] using entry_ind;
    intros rel parent t Hn Hin.
  - cbn [publish_dir] in Hin. cbn [no_dir_symlink] in Hn.
    rewrite forallb_forall in Hn.
    cbn [walk_titles]. apply in_or_app.
    rewrite trace_bind_eq in Hin. apply in_app_or in Hin as [Hin|Hin].
    + apply in_trace_iterM in Hin as [k [Hk Hin]].
      destruct (is_dir k) eqn:Hd; [|cbn in Hin; destruct Hin].
      cbv zeta in Hin. rewrite trace_bind_eq in Hin.
      apply in_app_or in Hin as [Hin|Hin].
      * apply upsert_traced_calls in Hin. subst t. left.
        apply in_level_titles. exists k. split; [exact Hk|].
        split; [unfold expected_kind; now rewrite Hd|reflexivity].
      * match goal with H : context [result ?m] |- _ =>
          destruct (result m) as [[pid op|msg st]|] end;
          [|cbn in Hin; destruct Hin as [Hin|[]]; discriminate|destruct Hin].
        rewrite trace_tell in Hin. destruct Hin as [Hin|Hin]; [discriminate|].
        right. apply in_flat_map. exists k. split; [exact Hk|].
        pose proof (Hn k Hk) as Hk'.
        destruct k as [n' ks' | n' | n' tg | n']; cbn in Hd; try discriminate.
        -- cbn [real_dir is_dir is_symlink negb andb].
           exact (list_all_In _ _ IH _ Hk _ _ _ Hk' Hin).
        -- cbn in Hk'. now rewrite Hd in Hk'.
    + destruct (result (iterM _ kids)); [|cbn in Hin; destruct Hin].
      rewrite trace_tell in Hin. apply in_app_or in Hin as [Hin|Hin].
      * apply in_map_iff in Hin as [f [Hf _]]. discriminate.
      * apply in_trace_iterM in Hin as [f [Hf Hin]].
        unfold swallow, trace at 1 in Hin. cbn [fst] in Hin.
        apply processMarkdownFile_calls in Hin. subst t. left.
        apply filter_In in Hf as [Hf Hb].
        apply andb_true_iff in Hb as [Hb Hmd]. apply andb_true_iff in Hb as [Hd _].
        apply in_level_titles. exists f. split; [exact Hf|].
        split; [unfold expected_kind; now rewrite Hmd, orb_true_r|reflexivity].
  - destruct Hin.
  - cbn [publish_dir] in Hin. cbn [no_dir_symlink] in Hn.
    apply negb_true_iff in Hn. rewrite publish_nondir_trace in Hin by exact Hn.
    destruct Hin.
  - destruct Hin.
Qed.

Lemma upsert_traced_flags t0 parent :
  done_flags (trace (upsert_traced cfg R t0 parent)) =
    match result (createPage cfg R t0 parent) with
    | Ok r => [success r] | Raise _ => [] end /\
  record_flags (trace (upsert_traced cfg R t0 parent)) = [] /\
  result (upsert_traced cfg R t0 parent) = result (createPage cfg R t0 parent).
Proof.
  destruct (ctl_flags_nil _ (createPage_ctl cfg R t0 parent)) as [D0 R0].
  unfold upsert_traced. rewrite trace_tell, result_tell, trace_bind_eq.
  destruct (result (createPage cfg R t0 parent)) as [r|e] eqn:Hr.
  - rewrite (result_bind_ok _ _ _ Hr), result_tell, trace_tell.
    unfold done_flags, record_flags in *. cbn [flat_map app].
    rewrite !flat_map_app, D0, R0. split; [|split]; reflexivity.
  - rewrite (result_bind_raise _ _ _ Hr), app_nil_r.
    unfold done_flags, record_flags in *. cbn [flat_map app].
    rewrite D0, R0. split; [|split]; reflexivity.
Qed.

Lemma balanced_upsert_then t0 parent (k : pub_result -> M unit) :
  (forall r, record_flags (trace (k r)) = success r :: done_flags (trace (k r))) ->
  done_flags (trace (bind (upsert_traced cfg R t0 parent) k)) =
    record_flags (trace (bind (upsert_traced cfg R t0 parent) k)).
Proof.
  intros Hk. destruct (upsert_traced_flags t0 parent) as [D [Rf Res]].
  rewrite trace_bind_eq, done_flags_app, record_flags_app, D, Rf, Res.
  destruct (result (createPage cfg R t0 parent)) as [r|e]; [|reflexivity].
  cbn. now rewrite Hk.
Qed.

Lemma balanced_iterM {A} (f : A -> M unit) l :
  (forall y, In y l -> done_flags (trace (f y)) = record_flags (trace (f y))) ->
  done_flags (trace (iterM f l)) = record_flags (trace (iterM f l)).
Proof.
  induction l as [|a l IH]; intros H; [reflexivity|].
  cbn [iterM]. rewrite trace_bind_eq, done_flags_app, record_flags_app.
  rewrite (H a (or_introl eq_refl)).
  destruct (result (f a)); [|reflexivity].
  rewrite IH; [reflexivity|]. intros y Hy. apply H. now right.
Qed.

Lemma publish_dir_balanced e : forall rel parent,
  done_flags (trace (publish_dir cfg R rel parent e)) =
    record_flags (trace (publish_dir cfg R rel parent e)).
Proof.
  induction e as [n kids IH | n | n tg IHt | n] using entry_ind; intros rel parent;
    [|reflexivity|exact (IHt rel parent)|reflexivity].
  cbn [publish_dir]. rewrite trace_bind_eq, done_flags_app, record_flags_app.
  rewrite balanced_iterM.
  2:{ intros k Hk. destruct (is_dir k); [|reflexivity]. cbv zeta.
      apply balanced_upsert_then. intros [pid op|msg st]; [|reflexivity].
      rewrite trace_tell. cbn [app record_flags done_flags flat_map].
      cbn [success]. f_equal. symmetry. apply (list_all_In _ _ IH _ Hk). }
  destruct (result (iterM _ kids)); [|reflexivity]. f_equal.
  rewrite trace_tell, done_flags_app, record_flags_app.
  replace (done_flags (map _ _)) with (@nil bool)
    by (clear; induction (filter _ kids); cbn; auto).
  replace (record_flags (map _ _)) with (@nil bool)
    by (clear; induction (filter _ kids); cbn; auto).
  cbn [app]. apply balanced_iterM. intros f _.
  unfold swallow, trace at 1 3. cbn [fst].
  unfold processMarkdownFile. apply balanced_upsert_then.
  intros [pid op|msg st]; reflexivity.
Qed.

End PublisherProps2.

Lemma record_flags_counts tr :
  length (filter is_record_success tr) = length (filter (fun b => b) (record_flags tr)) /\
  length (filter is_record_error tr) = length (filter negb (record_flags tr)).
Proof.
  induction tr as [|e tr [IH1 IH2]]; [split; reflexivity|].
  destruct e; cbn; rewrite ?IH1, ?IH2; split; reflexivity.
Qed.

(** Every title [publishFolder] upserts is in the expected set
    [buildExpectedPagesSet] computes for the same tree, when no symlink
    of the tree resolves to a directory ([publishFolder] descends into
    symlinked directories, [os.walk] does not).  This holds whatever the
    store answers, including when a request raises. *)
Theorem publishFolder_upserts_expected_titles cfg R root_kids t :
  forallb no_dir_symlink root_kids = true ->
  In (EvUpsertCall t) (trace (publishFolder cfg R root_kids)) ->
  In t (buildExpectedPagesSet root_kids).
Proof. intros H1 H2. exact (publish_dir_expected cfg R (EDir "." root_kids) "." None t H1 H2). Qed.

(** After [publishFolder], the aggregator's success counter is the number
    of upserts that returned success and its error list is as long as
    the number of upserts that returned a failure. *)
Theorem publishFolder_stats_count_upserts cfg R root_kids :
  ps_success_count (stats_after (trace (publishFolder cfg R root_kids))) =
    length (filter (fun b => b) (done_flags (trace (publishFolder cfg R root_kids)))) /\
  length (ps_errors (stats_after (trace (publishFolder cfg R root_kids)))) =
    length (filter negb (done_flags (trace (publishFolder cfg R root_kids)))).
Proof.
  unfold stats_after, publishFolder. rewrite fold_record.
  cbn [ps_success_count ps_errors empty_stats app Nat.add].
  rewrite recorded_errors_length, (publish_dir_balanced cfg R).
  exact (record_flags_counts _).
Qed.

(** ** [processMarkdownFile] with its image handling

    The file's lines are given as the [for line in mdFile] iteration
    yields them (each but possibly the last ends in a newline); a
    character is read as the code point of its byte (Latin-1). *)

Definition char_nl : ascii := "010"%char.
Definition char_tab : ascii := "009"%char.
Definition char_cr : ascii := "013"%char.
Definition char_dq : ascii := "034"%char.
Definition char_sq : ascii := "039"%char.
Definition char_bs : ascii := "092"%char.

Fixpoint has_char (c : ascii) (s : string) : bool :=
  match s with
  | EmptyString => false
  | String d s' => Ascii.eqb d c || has_char c s'
  end.

(** The text before the first newline: [.] does not match a newline and
    the pattern is anchored at the start ([\A]), so a match lies inside it. *)
Fixpoint before_nl (s : string) : string :=
  match s with
  | EmptyString => EmptyString
  | String c s' => if Ascii.eqb c char_nl then EmptyString else String c (before_nl s')
  end.

Fixpoint last_index_from (c : ascii) (s : string) (pos : nat) (acc : option nat)
  : option nat :=
  match s with
  | EmptyString => acc
  | String d s' => last_index_from c s' (S pos) (if Ascii.eqb d c then Some pos else acc)
  end.

(** The position of the last occurrence of [c] in [s]. *)
Definition last_index (c : ascii) (s : string) : option nat := last_index_from c s 0 None.

(** Position [i] of [l] can end the first greedy ".*" of the source's
    pattern (anchored "![", then ".*", "](", a lookahead refusing "http",
    a greedy group and a closing ")"): [l] has "](" at [i], the text
    after it does not start with "http", and a ")" follows, at [i + 2]
    or later. *)
Definition close_ok (l : string) (i : nat) : bool :=
  match String.get i l, String.get (S i) l, last_index ")"%char l with
  | Some a, Some b, Some j =>
      Ascii.eqb a "]"%char && Ascii.eqb b "("%char &&
      negb (String.prefix "http" (substring (i + 2) (String.length l - (i + 2)) l)) &&
      (i + 2 <=? j)%nat
  | _, _, _ => false
  end.

(** The greedy first ".*" backtracks from the longest candidate down to
    the empty one (position 2). *)
Fixpoint find_close (l : string) (i : nat) : option nat :=
  match i with
  | O => None
  | S i' => if (2 <=? i')%nat && close_ok l i' then Some i' else find_close l i' end.

(** The [re.findall] of the source on a line: at most one match, at
    position 0 ("\A"); [Some g] is the one-element list [[g]].  For the
    chosen "](", the greedy group extends to the last ")". *)
Definition image_group (line : string) : option string :=
  let l := before_nl line in
  if String.prefix "![" l then
    match find_close l (String.length l), last_index ")"%char l with
    | Some i, Some j => Some (substring (i + 2) (j - (i + 2)) l)
    | _, _ => None
    end
  else None.

Definition hex_digit (n : nat) : ascii :=
  ascii_of_nat (if (n <? 10)%nat then 48 + n else 87 + n)%nat.

(** One character of [repr(s)] with quote [q]. *)
Definition repr_char (q c : ascii) : string :=
  let n := nat_of_ascii c in
  if Ascii.eqb c q || Ascii.eqb c char_bs then String char_bs (String c EmptyString)
  else if Ascii.eqb c char_tab then String char_bs "t"
  else if Ascii.eqb c char_nl then String char_bs "n"
  else if Ascii.eqb c char_cr then String char_bs "r"
  else if (n <? 32)%nat || (n =? 127)%nat || ((128 <=? n)%nat && (n <=? 160)%nat)
          || (n =? 173)%nat
  then String char_bs (String "x" (String (hex_digit (n / 16)) (String (hex_digit (n mod 16)) EmptyString)))
  else String c EmptyString.

Fixpoint repr_body (q : ascii) (s : string) : string :=
  match s with
  | EmptyString => EmptyString
  | String c s' => repr_char q c ++ repr_body q s'
  end.

(** [repr(s)]: single quotes, unless [s] holds a single quote and no
    double quote. *)
Definition py_repr (s : string) : string :=
  let q := if has_char char_sq s && negb (has_char char_dq s) then char_dq else char_sq in
  String q (repr_body q s ++ String q EmptyString).

(** [str([g])]. *)
Definition str_list1 (g : string) : string := "[" ++ py_repr g ++ "]".

Fixpoint after_char (c : ascii) (s : string) : option string :=
  match s with
  | EmptyString => None
  | String d s' => if Ascii.eqb d c then Some s' else after_char c s'
  end.

Fixpoint upto_char (c : ascii) (s : string) : string :=
  match s with
  | EmptyString => EmptyString
  | String d s' => if Ascii.eqb d c then EmptyString else String d (upto_char c s')
  end.

(** [s.split(c)[1]]; [None] is the [IndexError] of a string without [c]. *)
Definition split_index1 (c : ascii) (s : string) : option string :=
  match after_char c s with Some r => Some (upto_char c r) | None => None end.

(** [s.split('/')[-1]]. *)
Fixpoint last_segment (s : string) : string :=
  match s with
  | EmptyString => EmptyString
  | String c s' =>
      if has_char "/"%char s' then last_segment s'
      else if Ascii.eqb c "/"%char then s' else s
  end.

(** [str(result).split('\'')[1]] then [.split('/')[-1]] on [result = [g]]. *)
Definition image_name (g : string) : option string :=
  match split_index1 char_sq (str_list1 g) with
  | Some f => Some (last_segment f)
  | None => None
  end.

Inductive line_kind :=
| LText
| LImage (name : string)
| LIndexError.

Definition classify_line (line : string) : line_kind :=
  match image_group line with
  | None => LText
  | Some g => match image_name g with Some n => LImage n | None => LIndexError end
  end.

Definition image_macro (name : string) : string :=
  "<ac:image> <ri:attachment ri:filename=" ++
  String char_dq (name ++ String char_dq " /></ac:image>").

(** The loop over the lines: [Some (newFileContent, filesToUpload)], or
    [None] when the filename extraction raises. *)
Fixpoint scan_lines (lines : list string) (content : string) (files : list string)
  : option (string * list string) :=
  match lines with
  | [] => Some (content, files)
  | line :: rest =>
      match classify_line line with
      | LText => scan_lines rest (content ++ line) files
      | LImage name => scan_lines rest (content ++ image_macro name) (app files [name])
      | LIndexError => None
      end
  end.

(** The names of the image lines, in order: [filesToUpload]. *)
Definition image_names (lines : list string) : list string :=
  flat_map (fun l => match classify_line l with LImage n => [n] | _ => [] end) lines.

(** Events of the full [processMarkdownFile]: those of the model above,
    and the attachment of an image file to a page. *)
Inductive fevent :=
| FCore (e : event)
| FAttach (page_id image_path : string).

Inductive fexn :=
| FExnCore (e : exn)
| FExnRead             (* OSError or UnicodeDecodeError of reading the file *)
| FExnIndex            (* IndexError of the filename extraction *)
| FExnAttach.          (* exception of [open] or of [attachFile] *)

Inductive fres (A : Type) :=
| FOk (a : A)
| FRaise (e : fexn).
Arguments FOk {A} a.
Arguments FRaise {A} e.

Definition FM (A : Type) : Type := (list fevent * fres A)%type.

Definition fret {A} (a : A) : FM A := ([], FOk a).
Definition fraise {A} (e : fexn) : FM A := ([], FRaise e).

Definition fbind {A B} (m : FM A) (f : A -> FM B) : FM B :=
  let (t1, r) := m in
  match r with
  | FOk a => let (t2, r2) := f a in (app t1 t2, r2)
  | FRaise e => (t1, FRaise e)
  end.

Definition lift_m {A} (m : M A) : FM A :=
  (map FCore (trace m),
   match result m with Ok a => FOk a | Raise e => FRaise (FExnCore e) end).

(** Response to the attachment POST (with the [open] of the image
    before it): [ATExc] is an exception of either; [body_ok] says the
    body parses and holds [results[0]['id']] as a string, without which
    the 200 branch raises. *)
Inductive attach_resp :=
| ATExc
| ATResp (status : Z) (body_ok : bool).

Definition attach_raises (r : attach_resp) : bool :=
  match r with
  | ATExc => true
  | ATResp status body_ok => (status =? 200) && negb body_ok
  end.

(** The [with open(file_entry.path, 'r', encoding="utf-8")] block and
    its [for line in mdFile] iteration: [RDExc] when opening the file or
    decoding it raises, otherwise the decoded lines, each with its line
    end, one character per code point. *)
Inductive file_read :=
| RDExc
| RDLines (lines : list string).

Section ImagePublisher.
Variable cfg : config.
Variable R : remote.
Variable image_folder : string.                   (* CONFIG["github_folder_with_image_files"] *)
Variable isfile : string -> bool.                 (* os.path.isfile *)
Variable r_attach : string -> string -> attach_resp.  (* page id, image path *)

Definition attachFile (page_id image_path : string) : FM unit :=
  ([FAttach page_id image_path],
   if attach_raises (r_attach page_id image_path) then FRaise FExnAttach else FOk tt).

(** The [for file in filesToUpload] loop. *)
Fixpoint attach_files (page_id : string) (files : list string) : FM unit :=
  match files with
  | [] => fret tt
  | file :: rest =>
      let imagePath := image_folder ++ "/" ++ file in
      if isfile imagePath
      then fbind (attachFile page_id imagePath) (fun _ => attach_files page_id rest)
      else attach_files page_id rest
  end.

(** [processMarkdownFile]: the lines are scanned first (the markdown
    rendering of [newFileContent] is the page body, which the store
    model does not observe), then the page is upserted and the outcome
    recorded; after a success the images are attached. *)
Definition processMarkdownFile_full (rel_path : string) (parentPageID : option string)
    (file : file_read) : FM unit :=
  match file with
  | RDExc => fraise FExnRead
  | RDLines lines =>
      match scan_lines lines "" [] with
      | None => fraise FExnIndex
      | Some (_, filesToUpload) =>
          fbind (lift_m (upsert_traced cfg R rel_path parentPageID)) (fun result =>
            match result with
            | PROk page_id op =>
                fbind (lift_m (tell [EvRecordSuccess (Some (op_name op))])) (fun _ =>
                  attach_files page_id filesToUpload)
            | PRFail _ _ => lift_m (tell [EvRecordError rel_path "file"])
            end)
      end
  end.

End ImagePublisher.

Definition core_events (tr : list fevent) : list event :=
  flat_map (fun e => match e with FCore x => [x] | FAttach _ _ => [] end) tr.

Definition attach_events (tr : list fevent) : list (string * string) :=
  flat_map (fun e => match e with FAttach p i => [(p, i)] | FCore _ => [] end) tr.

(** A character [repr] prints as itself inside single quotes. *)
Definition plain_char (c : ascii) : bool :=
  let n := nat_of_ascii c in
  negb ((n <? 32)%nat || (n =? 127)%nat || ((128 <=? n)%nat && (n <=? 160)%nat) || (n =? 173)%nat)
  && negb (Ascii.eqb c char_sq) && negb (Ascii.eqb c char_bs).

Fixpoint all_plain (s : string) : bool :=
  match s with
  | EmptyString => true
  | String c s' => plain_char c && all_plain s'
  end.

Lemma has_char_app c a b : has_char c (a ++ b) = has_char c a || has_char c b.
Proof. induction a as [|d a IH]; cbn; [reflexivity|]. now rewrite IH, orb_assoc. Qed.

Lemma get_has_char s n d : String.get n s = Some d -> has_char d s = true.
Proof.
  revert n. induction s as [|c s IH]; intros [|n]; cbn; try discriminate.
  - intros H. inversion H. subst. now rewrite Ascii.eqb_refl.
  - intros H. rewrite (IH n H). apply orb_true_r.
Qed.

Lemma get_app_r a b n : String.get (String.length a + n) (a ++ b) = String.get n b.
Proof. induction a as [|c a IH]; cbn; auto. Qed.

Lemma get_app_l a b n : (n < String.length a)%nat -> String.get n (a ++ b) = String.get n a.
Proof.
  revert n. induction a as [|c a IH]; intros [|n] H; cbn in *; try lia; auto.
  apply IH. lia.
Qed.

Lemma substring_app_r a b n m :
  substring (String.length a + n) m (a ++ b) = substring n m b.
Proof. induction a as [|c a IH]; cbn; auto. Qed.

Lemma substring_prefix s t : substring 0 (String.length s) (s ++ t) = s.
Proof. induction s as [|c s IH]; cbn; [apply substring_zero|now rewrite IH]. Qed.

Lemma substring_all s : substring 0 (String.length s) s = s.
Proof. rewrite <- (str_app_nil_r s) at 2. apply substring_prefix. Qed.

Lemma str_length_app a b : String.length (a ++ b) = (String.length a + String.length b)%nat.
Proof. induction a as [|c a IH]; cbn; auto. Qed.

Lemma before_nl_app a b :
  has_char char_nl a = false -> before_nl (a ++ b) = a ++ before_nl b.
Proof.
  induction a as [|c a IH]; cbn; [reflexivity|].
  intros H. apply orb_false_iff in H as [H1 H2]. rewrite H1. now rewrite (IH H2).
Qed.

Lemma has_char_before_nl c s : has_char c (before_nl s) = true -> has_char c s = true.
Proof.
  induction s as [|d s IH]; cbn; [auto|].
  destruct (Ascii.eqb d char_nl); cbn; [discriminate|].
  intros H. apply orb_true_iff in H as [H|H]; [now rewrite H|]. rewrite (IH H). apply orb_true_r.
Qed.

Lemma last_index_from_app c a b pos acc :
  last_index_from c (a ++ b) pos acc =
    last_index_from c b (pos + String.length a) (last_index_from c a pos acc).
Proof.
  revert pos acc. induction a as [|d a IH]; intros pos acc; cbn.
  - now rewrite Nat.add_0_r.
  - rewrite IH. now rewrite Nat.add_succ_r.
Qed.

Lemma last_index_from_none c s pos acc :
  has_char c s = false -> last_index_from c s pos acc = acc.
Proof.
  revert pos acc. induction s as [|d s IH]; intros pos acc; cbn; [auto|].
  intros H. apply orb_false_iff in H as [H1 H2]. rewrite H1. now apply IH.
Qed.

Lemma prefix_app_l p s t : String.prefix p s = true -> String.prefix p (s ++ t) = true.
Proof.
  revert s. induction p as [|a p IH]; intros s H; [destruct (s ++ t); reflexivity|].
  destruct s as [|b s]; cbn in *; [discriminate|].
  destruct (ascii_dec a b); [now apply IH|discriminate].
Qed.

Lemma prefix_app_char p s c r :
  has_char c p = false -> String.prefix p s = false -> String.prefix p (s ++ String c r) = false.
Proof.
  revert s. induction p as [|a p IH]; intros s Hc H.
  - destruct s; discriminate.
  - cbn in Hc. apply orb_false_iff in Hc as [Ha Hc].
    destruct s as [|b s]; cbn in *.
    + destruct (ascii_dec a c) as [->|]; [now rewrite Ascii.eqb_refl in Ha|reflexivity].
    + destruct (ascii_dec a b); [now apply IH|reflexivity].
Qed.

Lemma find_close_max l i0 n :
  (i0 < n)%nat -> (2 <= i0)%nat -> close_ok l i0 = true ->
  (forall i, (i0 < i < n)%nat -> close_ok l i = false) ->
  find_close l n = Some i0.
Proof.
  induction n as [|n IH]; intros Hlt H2 Hok Hrest; [lia|].
  cbn [find_close]. destruct (Nat.eq_dec n i0) as [->|Hne].
  - rewrite Hok. now rewrite (proj2 (Nat.leb_le _ _) H2).
  - rewrite (Hrest n) by lia. rewrite andb_false_r.
    apply IH; auto; [lia|]. intros i Hi. apply Hrest. lia.
Qed.

Lemma find_close_none l n :
  (forall i, (2 <= i < n)%nat -> close_ok l i = false) -> find_close l n = None.
Proof.
  induction n as [|n IH]; intros H; [reflexivity|].
  cbn [find_close]. destruct (2 <=? n)%nat eqn:E.
  - apply Nat.leb_le in E. rewrite (H n) by lia. cbn. apply IH. intros i Hi. apply H. lia.
  - cbn. apply IH. intros i Hi. apply H. lia.
Qed.

Lemma get_app_ge a b n :
  (String.length a <= n)%nat -> String.get n (a ++ b) = String.get (n - String.length a) b.
Proof.
  intros H. replace n with (String.length a + (n - String.length a))%nat at 1 by lia.
  apply get_app_r.
Qed.

Lemma substring_app_ge a b n m :
  (String.length a <= n)%nat -> substring n m (a ++ b) = substring (n - String.length a) m b.
Proof.
  intros H. replace n with (String.length a + (n - String.length a))%nat at 1 by lia.
  apply substring_app_r.
Qed.

Lemma not_has_char_get s n d c :
  has_char c s = false -> String.get n s = Some d -> Ascii.eqb d c = false.
Proof.
  intros Hc Hg. apply get_has_char in Hg.
  destruct (Ascii.eqb d c) eqn:E; [|reflexivity].
  apply Ascii.eqb_eq in E. subst. congruence.
Qed.

Section ImageLine.
Variables alt path tail : string.
Hypothesis alt_nl : has_char char_nl alt = false.
Hypothesis path_nl : has_char char_nl path = false.
Hypothesis path_bracket : has_char "]"%char path = false.
Hypothesis tail_paren : has_char ")"%char tail = false.

Let tl := before_nl tail.
Let l := "![" ++ alt ++ "](" ++ path ++ ")" ++ tl.

Lemma tl_paren : has_char ")"%char tl = false.
Proof.
  unfold tl. destruct (has_char ")"%char (before_nl tail)) eqn:E; [|reflexivity].
  apply has_char_before_nl in E. congruence.
Qed.

Lemma line_before_nl :
  before_nl ("![" ++ alt ++ "](" ++ path ++ ")" ++ tail) = l.
Proof.
  unfold l, tl. rewrite !before_nl_app by (reflexivity || assumption). reflexivity.
Qed.

Lemma l_length :
  String.length l = (2 + String.length alt + 2 + String.length path + 1 + String.length tl)%nat.
Proof. unfold l. rewrite !str_length_app. cbn. lia. Qed.

Lemma l_last_paren (path_paren : has_char ")"%char path = false) :
  last_index ")"%char l = Some (2 + String.length alt + 2 + String.length path)%nat.
Proof.
  unfold last_index, l. rewrite !last_index_from_app.
  rewrite (last_index_from_none _ tl) by exact tl_paren.
  rewrite (last_index_from_none _ path) by exact path_paren.
  cbn; f_equal; lia.
Qed.

Lemma l_split : l = ("![" ++ alt ++ "](") ++ (path ++ ")" ++ tl).
Proof. unfold l. now rewrite !str_app_assoc. Qed.

Lemma P_length : String.length ("![" ++ alt ++ "](") = (2 + String.length alt + 2)%nat.
Proof. rewrite !str_length_app. cbn. lia. Qed.

Lemma l_get_lo i :
  (i < 2 + String.length alt + 2)%nat ->
  String.get i l = String.get i ("![" ++ alt ++ "](").
Proof. intros H. rewrite l_split. apply get_app_l. rewrite P_length. exact H. Qed.

Lemma l_get_hi i :
  (2 + String.length alt + 2 <= i)%nat ->
  String.get i l = String.get (i - (2 + String.length alt + 2)) (path ++ ")" ++ tl).
Proof. intros H. rewrite l_split, get_app_ge; rewrite P_length; [reflexivity|exact H]. Qed.

Lemma l_get_bracket : String.get (2 + String.length alt) l = Some "]"%char.
Proof.
  rewrite l_get_lo by lia. rewrite (get_app_ge "![") by (cbn [String.length]; lia).
  rewrite get_app_ge by (cbn [String.length]; lia).
  replace (2 + String.length alt - String.length "![" - String.length alt)%nat with 0%nat
    by (cbn [String.length]; lia).
  reflexivity.
Qed.

Lemma l_get_paren : String.get (S (2 + String.length alt)) l = Some "("%char.
Proof.
  rewrite l_get_lo by lia. rewrite (get_app_ge "![") by (cbn [String.length]; lia).
  rewrite get_app_ge by (cbn [String.length]; lia).
  replace (S (2 + String.length alt) - String.length "![" - String.length alt)%nat with 1%nat
    by (cbn [String.length]; lia).
  reflexivity.
Qed.

Lemma l_after_open :
  substring (2 + String.length alt + 2) (String.length l - (2 + String.length alt + 2)) l =
    path ++ ")" ++ tl.
Proof.
  rewrite l_split at 2. rewrite substring_app_ge; rewrite P_length; [|lia].
  rewrite Nat.sub_diag, l_length.
  replace (2 + String.length alt + 2 + String.length path + 1 + String.length tl -
           (2 + String.length alt + 2))%nat
    with (String.length (path ++ ")" ++ tl)) by (rewrite !str_length_app; cbn; lia).
  apply substring_all.
Qed.

Lemma close_ok_paren_pos : close_ok l (S (2 + String.length alt)) = false.
Proof.
  unfold close_ok. rewrite l_get_paren.
  destruct (String.get (S (S (2 + String.length alt))) l), (last_index ")"%char l);
    reflexivity.
Qed.

Lemma close_ok_from_path (path_paren : has_char ")"%char path = false) i :
  (2 + String.length alt + 2 <= i)%nat -> close_ok l i = false.
Proof.
  intros Hi. unfold close_ok. rewrite (l_last_paren path_paren).
  destruct (Nat.le_gt_cases (i + 2) (2 + String.length alt + 2 + String.length path))
    as [Hle|Hgt].
  - rewrite (l_get_hi i Hi). rewrite get_app_l by lia.
    destruct (String.get (i - (2 + String.length alt + 2)) path) as [d|] eqn:Hg;
      [|reflexivity].
    rewrite (not_has_char_get _ _ _ _ path_bracket Hg).
    destruct (String.get (S i) l); reflexivity.
  - rewrite (proj2 (Nat.leb_gt _ _) Hgt).
    destruct (String.get i l), (String.get (S i) l); try reflexivity.
    apply andb_false_r.
Qed.

Lemma close_ok_in_alt (alt_bracket : has_char "]"%char alt = false) i :
  (2 <= i < 2 + String.length alt)%nat -> close_ok l i = false.
Proof.
  intros Hi. unfold close_ok. rewrite l_get_lo by lia.
  rewrite (get_app_ge "![") by (cbn [String.length]; lia).
  rewrite get_app_l by (cbn [String.length]; lia).
  destruct (String.get (i - String.length "![") alt) as [d|] eqn:Hg; [|reflexivity].
  rewrite (not_has_char_get _ _ _ _ alt_bracket Hg).
  destruct (String.get (S i) l), (last_index ")"%char l); reflexivity.
Qed.

Lemma l_prefix : String.prefix "![" l = true.
Proof. unfold l. apply prefix_app_self. Qed.

(** A markdown image line whose link target [path] has no "]", ")" or
    newline and does not start with "http", followed on the line by text
    without ")", matches the pattern with [path] as its group. *)
Lemma image_group_link (path_paren : has_char ")"%char path = false)
    (path_http : String.prefix "http" path = false) :
  image_group ("![" ++ alt ++ "](" ++ path ++ ")" ++ tail) = Some path.
Proof.
  unfold image_group. rewrite line_before_nl. cbv zeta. rewrite l_prefix.
  rewrite (find_close_max l (2 + String.length alt)).
  2:{ rewrite l_length. lia. }
  2:{ lia. }
  2:{ unfold close_ok. rewrite l_get_bracket, l_get_paren, (l_last_paren path_paren).
      rewrite l_after_open. change (")" ++ tl) with (String ")"%char tl).
      rewrite (prefix_app_char "http" path ")"%char tl) by
        (reflexivity || exact path_http).
      cbn [Ascii.eqb negb andb]. apply Nat.leb_le. lia. }
  2:{ intros i Hi. destruct (Nat.eq_dec i (S (2 + String.length alt))) as [->|Hne].
      - apply close_ok_paren_pos.
      - apply (close_ok_from_path path_paren). lia. }
  rewrite (l_last_paren path_paren). f_equal.
  replace (2 + String.length alt + 2 + String.length path - (2 + String.length alt + 2))%nat
    with (String.length path) by lia.
  rewrite l_split, substring_app_ge by (rewrite P_length; lia).
  rewrite P_length, Nat.sub_diag. apply substring_prefix.
Qed.

(** The same line with a link target starting with "http", and no "]"
    in the alt text, does not match. *)
Lemma image_group_http (path_paren : has_char ")"%char path = false)
    (alt_bracket : has_char "]"%char alt = false)
    (path_http : String.prefix "http" path = true) :
  image_group ("![" ++ alt ++ "](" ++ path ++ ")" ++ tail) = None.
Proof.
  unfold image_group. rewrite line_before_nl. cbv zeta. rewrite l_prefix.
  rewrite find_close_none; [reflexivity|].
  intros i Hi.
  destruct (Nat.lt_trichotomy i (2 + String.length alt)) as [Hlt|[->|Hgt]].
  - apply close_ok_in_alt; [exact alt_bracket|lia].
  - unfold close_ok. rewrite l_get_bracket, l_get_paren, (l_last_paren path_paren).
    rewrite l_after_open, (prefix_app_l "http" path) by exact path_http.
    cbn [Ascii.eqb negb andb]. reflexivity.
  - destruct (Nat.eq_dec i (S (2 + String.length alt))) as [->|Hne].
    + apply close_ok_paren_pos.
    + apply (close_ok_from_path path_paren). lia.
Qed.

End ImageLine.

Lemma repr_char_plain q c :
  plain_char c = true -> Ascii.eqb c q = false -> repr_char q c = String c EmptyString.
Proof.
  unfold plain_char, repr_char. cbv zeta. intros H Hq.
  apply andb_true_iff in H as [H Hb]. apply andb_true_iff in H as [He _].
  apply negb_true_iff in He, Hb.
  rewrite Hq, Hb. cbn [orb].
  destruct (Ascii.eqb c char_tab) eqn:Et;
    [apply Ascii.eqb_eq in Et; subst; discriminate He|].
  destruct (Ascii.eqb c char_nl) eqn:En;
    [apply Ascii.eqb_eq in En; subst; discriminate He|].
  destruct (Ascii.eqb c char_cr) eqn:Ec;
    [apply Ascii.eqb_eq in Ec; subst; discriminate He|].
  rewrite He. reflexivity.
Qed.

Lemma repr_body_plain q s :
  all_plain s = true -> has_char q s = false -> repr_body q s = s.
Proof.
  induction s as [|c s IH]; cbn; [reflexivity|].
  intros Hp Hq. apply andb_true_iff in Hp as [Hc Hp]. apply orb_false_iff in Hq as [Hcq Hq].
  rewrite (repr_char_plain q c Hc Hcq). cbn. now rewrite (IH Hp Hq).
Qed.

Lemma plain_no_sq s : all_plain s = true -> has_char char_sq s = false.
Proof.
  induction s as [|c s IH]; cbn; [reflexivity|].
  intros H. apply andb_true_iff in H as [Hc H]. rewrite (IH H), orb_false_r.
  destruct (Ascii.eqb c char_sq) eqn:E; [|reflexivity].
  unfold plain_char in Hc. rewrite E in Hc. cbn [negb] in Hc.
  rewrite andb_false_r in Hc. cbn in Hc. discriminate.
Qed.

Lemma after_char_app_none c a r :
  has_char c a = false -> after_char c (a ++ r) = after_char c r.
Proof.
  induction a as [|d a IH]; cbn; [reflexivity|].
  intros H. apply orb_false_iff in H as [H1 H2]. rewrite H1. now apply IH.
Qed.

Lemma upto_char_app c a r : has_char c a = false -> upto_char c (a ++ String c r) = a.
Proof.
  induction a as [|d a IH]; cbn.
  - now rewrite Ascii.eqb_refl.
  - intros H. apply orb_false_iff in H as [H1 H2]. rewrite H1. now rewrite (IH H2).
Qed.

Lemma upto_char_none c s : has_char c s = false -> upto_char c s = s.
Proof.
  induction s as [|d s IH]; cbn; [reflexivity|].
  intros H. apply orb_false_iff in H as [H1 H2]. rewrite H1. now rewrite (IH H2).
Qed.

Lemma after_char_app_some c a b : has_char c a = true -> after_char c (a ++ b) <> None.
Proof.
  induction a as [|d a IH]; cbn; [discriminate|].
  destruct (Ascii.eqb d c); [discriminate|]. cbn. exact IH.
Qed.

Lemma repr_body_has_sq g :
  has_char char_sq g = true -> has_char char_sq (repr_body char_dq g) = true.
Proof.
  induction g as [|c g IH]; cbn [has_char repr_body]; [discriminate|].
  rewrite has_char_app. intros H.
  destruct (Ascii.eqb c char_sq) eqn:E.
  - apply Ascii.eqb_eq in E. subst c. reflexivity.
  - cbn in H. rewrite (IH H). apply orb_true_r.
Qed.

Lemma image_name_some g : image_name g <> None.
Proof.
  unfold image_name, split_index1, str_list1, py_repr.
  destruct (has_char char_sq g && negb (has_char char_dq g)) eqn:Hq.
  - apply andb_true_iff in Hq as [Hs _].
    cbn [append after_char].
    change (Ascii.eqb "["%char char_sq) with false.
    change (Ascii.eqb char_dq char_sq) with false. cbv iota.
    rewrite str_app_assoc.
    destruct (after_char char_sq (repr_body char_dq g ++ _)) eqn:E; [discriminate|].
    exfalso. exact (after_char_app_some _ _ _ (repr_body_has_sq g Hs) E).
  - cbn. discriminate.
Qed.

(** For a path of printable ASCII characters other than a quote and a
    backslash, the attached filename is the path's last "/"-separated
    segment. *)
Theorem image_name_plain g :
  all_plain g = true -> image_name g = Some (last_segment g).
Proof.
  intros Hp. unfold image_name, split_index1, str_list1, py_repr.
  rewrite (plain_no_sq g Hp). cbn [andb].
  rewrite (repr_body_plain char_sq g Hp (plain_no_sq g Hp)).
  cbn [append after_char]. change (Ascii.eqb "["%char char_sq) with false.
  rewrite Ascii.eqb_refl. cbv iota.
  rewrite str_app_assoc. cbn [append].
  now rewrite (upto_char_app _ _ _ (plain_no_sq g Hp)).
Qed.

(** A path holding one single quote and no double quote is printed by
    [repr] between double quotes, so the text split off at the first
    quote is the part after it followed by the closing double quote and
    bracket.  The attached filename is the last segment of that text, not
    of the path. *)
Theorem image_name_quote a b :
  all_plain a = true -> all_plain b = true ->
  has_char char_dq a = false -> has_char char_dq b = false ->
  image_name (a ++ String char_sq b) =
    Some (last_segment (b ++ String char_dq "]")).
Proof.
  intros Ha Hb Hda Hdb. unfold image_name, split_index1, str_list1, py_repr.
  assert (Hs : has_char char_sq (a ++ String char_sq b) = true).
  { rewrite has_char_app. cbn [has_char]. rewrite Ascii.eqb_refl. cbn [orb].
    apply orb_true_r. }
  assert (Hd : has_char char_dq (a ++ String char_sq b) = false).
  { rewrite has_char_app. cbn [has_char]. rewrite Hda, Hdb. reflexivity. }
  rewrite Hs, Hd. cbn [andb negb].
  assert (Hr : repr_body char_dq (a ++ String char_sq b) = a ++ String char_sq b).
  { clear Hs Hd. induction a as [|c a IH]; cbn [append repr_body].
    - change (repr_char char_dq char_sq) with (String char_sq EmptyString).
      cbn [append]. now rewrite (repr_body_plain char_dq b Hb Hdb).
    - cbn in Ha, Hda. apply andb_true_iff in Ha as [Hc Ha].
      apply orb_false_iff in Hda as [Hcd Hda].
      rewrite (repr_char_plain char_dq c Hc Hcd). cbn [append].
      now rewrite (IH Ha Hda). }
  rewrite Hr. cbn [append after_char].
  change (Ascii.eqb "["%char char_sq) with false.
  change (Ascii.eqb char_dq char_sq) with false. cbv iota.
  rewrite !str_app_assoc, (after_char_app_none _ _ _ (plain_no_sq a Ha)).
  cbn [append after_char]. rewrite Ascii.eqb_refl. cbv iota.
  rewrite upto_char_none; [reflexivity|].
  rewrite has_char_app, (plain_no_sq b Hb). reflexivity.
Qed.

Lemma classify_line_no_index_error line : classify_line line <> LIndexError.
Proof.
  unfold classify_line. destruct (image_group line) as [g|]; [|discriminate].
  destruct (image_name g) eqn:E; [discriminate|].
  exfalso. exact (image_name_some g E).
Qed.

Lemma scan_lines_files lines content files :
  exists c, scan_lines lines content files = Some (c, app files (image_names lines)).
Proof.
  revert content files. induction lines as [|line rest IH]; intros content files.
  - exists content. cbn. now rewrite app_nil_r.
  - cbn [scan_lines]. unfold image_names. cbn [flat_map]. fold (image_names rest).
    pose proof (classify_line_no_index_error line) as Hn.
    destruct (classify_line line) as [|n|]; [ | | contradiction ].
    + apply IH.
    + destruct (IH (content ++ image_macro n) (app files [n])) as [c E].
      exists c. rewrite E. now rewrite <- app_assoc.
Qed.

Lemma fst_fbind {A B} (m : FM A) (f : A -> FM B) :
  fst (fbind m f) = app (fst m) (match snd m with FOk a => fst (f a) | FRaise _ => [] end).
Proof.
  unfold fbind. destruct m as [t [a|e]]; cbn.
  - destruct (f a); reflexivity.
  - now rewrite app_nil_r.
Qed.

Lemma core_events_app a b : core_events (app a b) = app (core_events a) (core_events b).
Proof. apply flat_map_app. Qed.

Lemma attach_events_app a b : attach_events (app a b) = app (attach_events a) (attach_events b).
Proof. apply flat_map_app. Qed.

Lemma core_events_map tr : core_events (map FCore tr) = tr.
Proof. unfold core_events. induction tr as [|e tr IH]; cbn; [reflexivity|]. now rewrite IH. Qed.

Lemma attach_events_map tr : attach_events (map FCore tr) = [].
Proof. unfold attach_events. induction tr as [|e tr IH]; cbn; auto. Qed.

Section FullProps.
Variable cfg : config.
Variable R : remote.
Variable image_folder : string.
Variable isfile : string -> bool.
Variable r_attach : string -> string -> attach_resp.

Lemma attach_files_core pid files :
  core_events (fst (attach_files image_folder isfile r_attach pid files)) = [].
Proof.
  induction files as [|f files IH]; [reflexivity|]. cbn [attach_files]. cbv zeta.
  destruct (isfile (image_folder ++ "/" ++ f)); [|exact IH].
  rewrite fst_fbind, core_events_app. unfold attachFile. cbn [fst snd].
  destruct (attach_raises _); [reflexivity|exact IH].
Qed.

Lemma attach_files_attached pid files :
  (forall p i, attach_raises (r_attach p i) = false) ->
  attach_events (fst (attach_files image_folder isfile r_attach pid files)) =
    map (fun i => (pid, i)) (filter isfile (map (fun n => image_folder ++ "/" ++ n) files)).
Proof.
  intros Hno. induction files as [|f files IH]; [reflexivity|].
  cbn [attach_files map filter]. cbv zeta.
  destruct (isfile (image_folder ++ "/" ++ f)); [|exact IH].
  rewrite fst_fbind, attach_events_app. unfold attachFile. cbn [fst snd].
  rewrite Hno. cbn. now rewrite IH.
Qed.

Lemma attach_files_no_index pid files :
  snd (attach_files image_folder isfile r_attach pid files) <> FRaise FExnIndex.
Proof.
  induction files as [|f files IH]; [discriminate|]. cbn [attach_files]. cbv zeta.
  destruct (isfile (image_folder ++ "/" ++ f)); [|exact IH].
  unfold fbind, attachFile. destruct (attach_raises _).
  - discriminate.
  - destruct (attach_files _ _ _ pid files) as [t r]. exact IH.
Qed.

(** Whatever the content of the file, [processMarkdownFile] never raises
    the [IndexError] of the filename extraction: [str([g])] always holds a
    single quote, so [split('\'')[1]] exists for every image line. *)
Theorem processMarkdownFile_full_no_index_error rel_path parentPageID file :
  snd (processMarkdownFile_full cfg R image_folder isfile r_attach
         rel_path parentPageID file) <> FRaise FExnIndex.
Proof.
  destruct file as [|lines]; [discriminate|].
  destruct (scan_lines_files lines "" []) as [c E].
  unfold processMarkdownFile_full. rewrite E. unfold fbind at 1, lift_m at 1.
  destruct (result (upsert_traced cfg R rel_path parentPageID)) as [[pid op|msg st]|e].
  - unfold fbind, lift_m. cbn [result tell snd].
    pose proof (attach_files_no_index pid ([] ++ image_names lines)) as H.
    destruct (attach_files _ _ _ pid _) as [t r]. exact H.
  - discriminate.
  - discriminate.
Qed.

(** When the file cannot be opened or decoded, its exception escapes
    before any request: nothing is upserted or recorded.  Once the file
    is read, the image handling leaves the upsert and the aggregator as
    the model without it has them: the requests of the upsert and the
    recorded outcome are those of [processMarkdownFile] above, whatever
    the lines and whatever the attachment calls do. *)
Theorem processMarkdownFile_full_core rel_path parentPageID file :
  core_events (fst (processMarkdownFile_full cfg R image_folder isfile r_attach
                      rel_path parentPageID file)) =
    match file with
    | RDExc => @nil event
    | RDLines _ => trace (processMarkdownFile cfg R rel_path parentPageID)
    end /\
  (file = RDExc ->
   snd (processMarkdownFile_full cfg R image_folder isfile r_attach
          rel_path parentPageID file) = FRaise FExnRead).
Proof.
  destruct file as [|lines]; [split; reflexivity|].
  split; [|discriminate].
  destruct (scan_lines_files lines "" []) as [c E].
  unfold processMarkdownFile_full, processMarkdownFile. rewrite E.
  rewrite fst_fbind, core_events_app, trace_bind_eq.
  unfold lift_m at 1 2. cbn [fst snd].
  rewrite core_events_map. f_equal.
  destruct (result (upsert_traced cfg R rel_path parentPageID)) as [[pid op|msg st]|e].
  - rewrite fst_fbind, core_events_app. unfold lift_m at 2. cbn [snd result tell].
    rewrite attach_files_core, app_nil_r.
    unfold lift_m. cbn [fst]. apply core_events_map.
  - unfold lift_m. cbn [fst]. apply core_events_map.
  - reflexivity.
Qed.

(** When no attachment raises, the images attached for a file read as
    [lines] are, in the order of their lines, the files
    [image_folder/name] that exist for the image lines, each attached to
    the page the upsert returned; nothing is attached when the upsert
    fails or raises. *)
Theorem processMarkdownFile_full_attachments rel_path parentPageID lines :
  (forall p i, attach_raises (r_attach p i) = false) ->
  attach_events (fst (processMarkdownFile_full cfg R image_folder isfile r_attach
                        rel_path parentPageID (RDLines lines))) =
    match result (createPage cfg R rel_path parentPageID) with
    | Ok (PROk pid _) =>
        map (fun i => (pid, i))
            (filter isfile (map (fun n => image_folder ++ "/" ++ n) (image_names lines)))
    | _ => []
    end.
Proof.
  intros Hno. destruct (scan_lines_files lines "" []) as [c E].
  destruct (upsert_traced_flags cfg R rel_path parentPageID) as [_ [_ Hres]].
  unfold processMarkdownFile_full. rewrite E.
  rewrite fst_fbind, attach_events_app. unfold lift_m at 1 2. cbn [fst snd].
  rewrite attach_events_map, Hres. cbn [app].
  destruct (result (createPage cfg R rel_path parentPageID)) as [[pid op|msg st]|e].
  - rewrite fst_fbind, attach_events_app. unfold lift_m. cbn [fst snd result tell].
    rewrite attach_events_map. apply (attach_files_attached pid _ Hno).
  - unfold lift_m. cbn [fst]. apply attach_events_map.
  - reflexivity.
Qed.

End FullProps.

(** ** Instances of the properties above *)

Lemma createNewPage_rejected_no_lookup_witness :
  createNewPage demo_cfg demo_remote "rej  AUTO" None =
    ([EvCreate "rej  AUTO" "100"], Ok (PRFail "Internal error" (SCode 500))).
Proof.
  apply (createNewPage_rejected_no_lookup demo_cfg demo_remote "rej  AUTO" None 500
           {| cb_id := None; cb_message := Some "Internal error" |}); vm_compute; reflexivity.
Defined.

Lemma createPage_version_from_details_witness :
  createPage demo_cfg demo_remote_v "v.md" None =
    ([EvSearch "v.md  AUTO" "100" 0; EvDetail "h1"; EvUpdate "h1" "v.md  AUTO" 6],
     result (updatePage demo_remote_v "h1" "v.md  AUTO" 5)).
Proof.
  apply (createPage_version_from_details demo_cfg demo_remote_v "v.md" None
           {| hit_id := "h1"; hit_version := None; hit_title := "v.md  AUTO" |} [] 200 (Some 5));
    vm_compute; reflexivity.
Defined.

Lemma findPageByTitle_detail_exception_retries_witness :
  exists rest,
    trace (findPageByTitle demo_cfg demo_remote_v "x.md" None) =
      EvSearch "x.md  AUTO" "100" 0 :: EvDetail "h2" :: EvSleep 2 :: EvSearch "x.md  AUTO" "100" 1 :: rest.
Proof.
  apply (findPageByTitle_detail_exception_retries demo_cfg demo_remote_v "x.md" None
           {| hit_id := "h2"; hit_version := None; hit_title := "x.md  AUTO" |} []);
    vm_compute; reflexivity.
Defined.

Lemma searchPages_pagination_witness :
  searchPages [BRResp 200 ["p1"] true; BRResp 200 ["p2"] false; BRExc] =
    ([EvList 0; EvList 1], Ok ["p1"; "p2"]).
Proof.
  apply (searchPages_pagination [BRResp 200 ["p1"] true] (BRResp 200 ["p2"] false) [BRExc]);
    vm_compute; reflexivity.
Defined.

Lemma deletePages_all_respond_witness :
  deletePages demo_remote ["p1"; "p2"] = ([EvDelete "p1"; EvDelete "p2"], Ok []).
Proof. apply (deletePages_all_respond demo_remote ["p1"; "p2"]); vm_compute; reflexivity. Defined.

Lemma deletePages_exception_stops_witness :
  deletePages demo_remote_v ["p1"; "bad"; "p3"] =
    ([EvDelete "p1"; EvDelete "bad"], Raise ExnRequest).
Proof.
  apply (deletePages_exception_stops demo_remote_v ["p1"] "bad" ["p3"]); vm_compute; reflexivity.
Defined.

Lemma cleanupOrphanPages_orphans_sound_witness :
  In "p2" (found_pages demo_batches) /\
  (exists t, r_fetch demo_remote "p2" = TRResp 200 t /\
             "old.md  AUTO" = match t with Some x => x | None => "" end) /\
  "old.md" = base_title_of demo_cfg "old.md  AUTO" /\
  py_set_mem "old.md" ["guide.md"] = false.
Proof.
  apply (cleanupOrphanPages_orphans_sound demo_cfg demo_remote ["guide.md"] demo_batches
           {| deleted_count := 0;
              orphans := [{| o_id := "p2"; o_title := "old.md  AUTO"; o_base := "old.md" |}];
              skipped := Some true; reason := Some "Safety threshold exceeded" |}
           {| o_id := "p2"; o_title := "old.md  AUTO"; o_base := "old.md" |}).
  - vm_compute. reflexivity.
  - left. reflexivity.
Defined.

Lemma cleanupOrphanPages_deleted_count_witness :
  1%Z = Z.of_nat 1 /\
  filter is_delete (trace (cleanupOrphanPages demo_cfg demo_remote ["guide.md"] demo_batches_n)) =
    [EvDelete "p2"].
Proof.
  apply (cleanupOrphanPages_deleted_count demo_cfg demo_remote ["guide.md"] demo_batches_n
           {| deleted_count := 1;
              orphans := [{| o_id := "p2"; o_title := "old.md  AUTO"; o_base := "old.md" |}];
              skipped := Some false; reason := None |}); vm_compute; reflexivity.
Defined.

Lemma base_title_of_full_title_witness :
  base_title_of demo_cfg (full_title_of demo_cfg "docs/guide.md") = "docs/guide.md".
Proof. apply (base_title_of_full_title demo_cfg "docs/guide.md"); vm_compute; reflexivity. Defined.

Lemma publishFolder_upserts_expected_titles_witness :
  In "docs/guide.md" (buildExpectedPagesSet demo_tree).
Proof.
  apply (publishFolder_upserts_expected_titles demo_cfg demo_remote demo_tree "docs/guide.md").
  - vm_compute. reflexivity.
  - vm_compute. repeat (first [left; reflexivity | right]).
Defined.

Lemma image_group_link_witness :
  image_group ("![" ++ "test" ++ "](" ++ "/data_images/test_image.jpg" ++ ")" ++ String char_nl "") =
    Some "/data_images/test_image.jpg".
Proof.
  apply (image_group_link "test" "/data_images/test_image.jpg" (String char_nl "")); vm_compute; reflexivity.
Defined.

Lemma image_group_http_witness :
  image_group ("![" ++ "logo" ++ "](" ++ "https://example.com/a.png" ++ ")" ++ "") = None.
Proof.
  apply (image_group_http "logo" "https://example.com/a.png" ""); vm_compute; reflexivity.
Defined.

Lemma image_name_plain_witness :
  image_name ("img/caf" ++ String (ascii_of_nat 233) ".png") =
    Some ("caf" ++ String (ascii_of_nat 233) ".png").
Proof.
  apply (image_name_plain ("img/caf" ++ String (ascii_of_nat 233) ".png")); vm_compute; reflexivity.
Defined.

Lemma image_name_quote_witness :
  image_name ("img/it" ++ String char_sq "s.png") = Some ("s.png" ++ String char_dq "]").
Proof. apply (image_name_quote "img/it" "s.png"); vm_compute; reflexivity. Defined.

Lemma processMarkdownFile_full_attachments_witness :
  attach_events (fst (processMarkdownFile_full demo_cfg demo_remote "img"
                        (fun p => String.eqb p "img/a.png") (fun _ _ => ATResp 200 true)
                        "readme.md" None (RDLines demo_lines))) =
    [("id:readme.md  AUTO", "img/a.png")].
Proof.
  rewrite (processMarkdownFile_full_attachments demo_cfg demo_remote "img"
             (fun p => String.eqb p "img/a.png") (fun _ _ => ATResp 200 true) "readme.md" None demo_lines).
  - vm_compute. reflexivity.
  - intros p i. reflexivity.
Defined.

Lemma main_run_deletes_every_found_page_witness :
  exists t0, forallb is_list t0 = true /\
  main_run demo_remote demo_batches =
    (app t0 [EvDelete "p1"; EvDelete "p2"; EvExit 0], Ok tt).
Proof. apply (main_run_deletes_every_found_page demo_remote demo_batches). vm_compute. reflexivity. Defined.

